(** * ACME work-item extraction bot: a shallow embedding and its properties

    The development follows [ACME_Work_items_extraction.py] and [wincred.py].
    Python values are tagged by their runtime type, exceptions carry the
    name of their class and their [str()], and every call that leaves the
    process (credential manager, HTTP, ODBC, SMTP) is answered by a [world]
    and written to a trace, which survives an exception. *)

From Stdlib Require Import ZArith String Ascii Lia.
From Stdlib.Strings Require Import Byte.
From stdpp Require Import base option list strings gmap pretty.

Set Warnings "-register-all".

Local Open Scope string_scope.
Local Open Scope Z_scope.
Local Open Scope list_scope.

(** ** Python values and exceptions *)

(** A cell of the Settings sheet as [.values] yields it, or any value read
    from it: a [str]; an [int], which is what an integer cell of a column
    of mixed content holds; a [numpy.int64], which is what the cells of a
    column of integers only hold; or an object of another type (float, with
    the NaN of an empty cell; bool; datetime), known by its type name only. *)
Inductive pyval :=
| PyStr (s : string)
| PyInt (z : Z)
| PyInt64 (z : Z)
| PyOther (type_name : string).

#[global] Instance pyval_eq_dec : EqDecision pyval.
Proof. solve_decision. Defined.

(** An exception object: [exn_class] is the qualified name printed by
    [str(type(ex))] between the quotes, [exn_str] is [str(ex)]. *)
Record exn := Exn { exn_class : string; exn_str : string }.

#[global] Instance exn_eq_dec : EqDecision exn.
Proof. solve_decision. Defined.

Definition BusinessException (message : string) : exn :=
  Exn "__main__.BusinessException" message.
Definition Exception (message : string) : exn := Exn "Exception" message.
Definition TypeError (message : string) : exn := Exn "TypeError" message.
Definition AttributeError (message : string) : exn := Exn "AttributeError" message.
Definition KeyError (message : string) : exn := Exn "KeyError" message.
Definition ValueError (message : string) : exn := Exn "ValueError" message.
Definition ArgumentError (message : string) : exn := Exn "ctypes.ArgumentError" message.

(** [str(type(ex))] *)
Definition str_type (ex : exn) : string :=
  "<class '" +:+ exn_class ex +:+ "'>".

(** Python's [needle in haystack] on strings. *)
Fixpoint str_in (needle haystack : string) : bool :=
  if String.prefix needle haystack then true
  else match haystack with
       | EmptyString => false
       | String _ rest => str_in needle rest
       end.

(** ** Effects *)

(** Why a run of the model stops without a Python outcome: the loop budget
    is spent, or pandas is asked something this embedding does not describe. *)
Inductive halt := OutOfFuel | BeyondModel.

Inductive result (A : Type) :=
| Ret (a : A)
| Raise (ex : exn)
| Halt (h : halt).
Arguments Ret {A} a.
Arguments Raise {A} ex.
Arguments Halt {A} h.

(** The variable parts of the ODBC calls of [insert_into_db]. *)
Inductive param :=
| Scalar (c : option string)
| SubSeries (cs : list (option string)).

Inductive db_op :=
| DbConnect (server database uid : string) (pwd : list Z)
| DbCursor
| DbExecute (sql : string) (params : list param)
| DbCommit
| DbCursorClose.

(** A pandas frame: column labels, and rows under their index label. *)
Record DataFrame := {
  columns : list string;
  rows : list (nat * list (option string))
}.

(** The MIME message of [send_email]; the attachment keeps the frame whose
    [to_csv()] text is its payload. *)
Record message := {
  msg_subject : string;
  msg_from : string;
  msg_to : pyval;
  msg_attachment : option (option string * DataFrame);
  msg_html : string
}.

Inductive smtp_op :=
| SmtpConnect (server port : pyval)
| SmtpEhlo
| SmtpStarttls
| SmtpLogin (user : string) (pwd : list Z)
| SmtpSendmail (from_addr : string) (to_addrs : pyval) (msg : message)
| SmtpQuit.

Inductive http_request :=
| GET (url : pyval)
| POST (url : pyval) (token : pyval) (email : string) (pwd : list Z).

Inductive event :=
| EvCredRead (name : option string) (found : bool)
| EvCredFree
| EvHttp (req : http_request)
| EvDb (op : db_op)
| EvSmtp (op : smtp_op).

Definition trace := list event.

(** A computation reads the trace so far and returns its outcome with the
    trace extended; what was done before an exception stays done. *)
Definition M (A : Type) : Type := trace → result A * trace.

Definition ret {A} (a : A) : M A := λ t, (Ret a, t).
Definition raise {A} (ex : exn) : M A := λ t, (Raise ex, t).
Definition halt_with {A} (h : halt) : M A := λ t, (Halt h, t).
Definition emit (ev : event) : M unit := λ t, (Ret tt, t ++ [ev]).

Definition bind {A B} (m : M A) (k : A → M B) : M B :=
  λ t, match m t with
       | (Ret a, t') => k a t'
       | (Raise ex, t') => (Raise ex, t')
       | (Halt h, t') => (Halt h, t')
       end.

Notation "x <- m ;; k" := (bind m (λ x, k))
  (at level 100, m at next level, right associativity).
Notation "m ;;; k" := (bind m (λ _, k))
  (at level 100, right associativity).

(** [try: body finally: fin] *)
Definition try_finally {A} (body : M A) (fin : M unit) : M A :=
  λ t, match body t with
       | (Ret a, t') =>
           match fin t' with
           | (Ret _, t'') => (Ret a, t'')
           | (Raise ex, t'') => (Raise ex, t'')
           | (Halt h, t'') => (Halt h, t'')
           end
       | (Raise ex, t') =>
           match fin t' with
           | (Ret _, t'') => (Raise ex, t'')
           | (Raise ex', t'') => (Raise ex', t'')
           | (Halt h, t'') => (Halt h, t'')
           end
       | (Halt h, t') => (Halt h, t')
       end.

(** [try: body except Exception as ex: handler ex] *)
Definition try_except {A} (body : M A) (handler : exn → M A) : M A :=
  λ t, match body t with
       | (Raise ex, t') => handler ex t'
       | other => other
       end.

(** Lift a pure outcome. *)
Definition lift {A} (r : result A) : M A := λ t, (r, t).

(** ** The parsed document (BeautifulSoup with html.parser) *)

(** An attribute value as bs4 keeps it: a string, or the token list of a
    multi-valued attribute such as [class]. *)
Inductive attr_value :=
| AttrStr (s : string)
| AttrList (tokens : list string).

Inductive node :=
| NavigableString (s : string)
| Tag (name : string) (attrs : gmap string attr_value) (contents : list node).

(** A [Tag] object as the program holds it: the element, and the siblings
    that follow it under its parent. *)
Record element := Element { el_node : node; el_next : list node }.

Definition tag_attrs (n : node) : gmap string attr_value :=
  match n with
  | NavigableString _ => ∅
  | Tag _ a _ => a
  end.

Definition is_tag (name : string) (n : node) : bool :=
  match n with
  | NavigableString _ => false
  | Tag nm _ _ => bool_decide (nm = name)
  end.

(** bs4's match of an attribute value against a search string: a token of a
    multi-valued attribute, or the tokens joined by one space. *)
Definition value_matches (against : string) (v : attr_value) : bool :=
  match v with
  | AttrStr s => bool_decide (s = against)
  | AttrList tokens =>
      bool_decide (against ∈ tokens)
      || bool_decide (String.concat " " tokens = against)
  end.

Definition has_attr (key against : string) (n : node) : bool :=
  match tag_attrs n !! key with
  | Some v => value_matches against v
  | None => false
  end.

(** Every node below [n], in document order. *)
Fixpoint descendants (n : node) : list node :=
  match n with
  | NavigableString _ => []
  | Tag _ _ cs => flat_map (λ c, c :: descendants c) cs
  end.

(** [tag.find_all(name)] *)
Definition find_all (name : string) (n : node) : list node :=
  filter (λ d, is_tag name d) (descendants n).

(** [tag.find(...)]: the first descendant that passes [p], held with its
    following siblings. *)
Fixpoint find_in (p : node → bool) (n : node) : option element :=
  match n with
  | NavigableString _ => None
  | Tag _ _ cs =>
      (fix scan (l : list node) : option element :=
         match l with
         | [] => None
         | c :: rest =>
             if p c then Some (Element c rest)
             else match find_in p c with
                  | Some e => Some e
                  | None => scan rest
                  end
         end) cs
  end.

(** [tag.findNextSibling(name)] *)
Fixpoint findNextSibling_in (name : string) (sibs : list node) : option element :=
  match sibs with
  | [] => None
  | s :: rest =>
      if is_tag name s then Some (Element s rest)
      else findNextSibling_in name rest
  end.

Definition findNextSibling (name : string) (e : element) : option element :=
  findNextSibling_in name (el_next e).

(** [tag.text] *)
Fixpoint text (n : node) : string :=
  match n with
  | NavigableString s => s
  | Tag _ _ cs => String.concat "" (map text cs)
  end.

(** [str.isspace] on one character, code points below 256. *)
Definition is_space (c : ascii) : bool :=
  let n := nat_of_ascii c in
  ((9 <=? n) && (n <=? 13) || (28 <=? n) && (n <=? 32)
   || (n =? 133) || (n =? 160))%nat.

Fixpoint lstrip (s : string) : string :=
  match s with
  | EmptyString => EmptyString
  | String c rest => if is_space c then lstrip rest else s
  end.

Definition str_rev (s : string) : string :=
  string_of_list_ascii (rev (list_ascii_of_string s)).

(** [str.strip()] *)
Definition strip (s : string) : string :=
  str_rev (lstrip (str_rev (lstrip s))).

(** ** Config accessor *)

Record config_row := { Name : pyval; Value : pyval }.

(** [config[config['Name'] == key]['Value'].values] *)
Definition matching_values (key : string) (config : list config_row) : list pyval :=
  Value <$> filter (λ r, Name r = PyStr key) config.

(** [type(v) == str or type(v) == int] *)
Definition is_str_or_int (v : pyval) : bool :=
  match v with
  | PyStr _ | PyInt _ => true
  | PyInt64 _ | PyOther _ => false
  end.

Definition read_config_value (key : string) (config : list config_row) : option pyval :=
  match matching_values key config with
  | [v] =>
      if bool_decide (v ≠ PyStr "") && is_str_or_int v then Some v else None
  | _ => None
  end.

(** ** The world outside the process *)

(** A CREDENTIALW entry: [UserName] may be NULL; [CredentialBlob] points to
    [CredentialBlobSize] bytes of memory, and [after_blob] is the byte that
    follows them there. *)
Record WinCredential := {
  UserName : option string;
  CredentialBlob : list byte;
  after_blob : byte
}.

Definition CredentialBlobSize (c : WinCredential) : nat :=
  length (CredentialBlob c).

(** The named tuple of [wincred.py]; the password is the [str] built from
    code points, kept as those code points. *)
Record Credential := { username : option string; password : list Z }.

Record response := { status_code : Z; soup_of : node }.

Record world := {
  config : list config_row;
  cred_store : gmap string WinCredential;
  http : http_request → exn + response;
  db : db_op → option exn;
  smtp : smtp_op → option exn
}.

(** Calls that leave the process. The trace lists the calls that were
    answered; a call the world fails raises and leaves no entry. *)
Definition request (w : world) (req : http_request) : M response :=
  match http w req with
  | inl ex => raise ex
  | inr r => emit (EvHttp req);;; ret r
  end.

Definition db_call (w : world) (op : db_op) : M unit :=
  match db w op with
  | Some ex => raise ex
  | None => emit (EvDb op)
  end.

Definition smtp_call (w : world) (op : smtp_op) : M unit :=
  match smtp w op with
  | Some ex => raise ex
  | None => emit (EvSmtp op)
  end.

(** ** Secret store client ([wincred.py]) *)

(** [LPBYTE] is [POINTER(wintypes.BYTE)], and [wintypes.BYTE] is [c_byte]
    (ctypes up to Python 3.11): a byte is read as a signed char. *)
Definition c_byte (b : byte) : Z :=
  let n := Z.of_N (Byte.to_N b) in
  if n <? 128 then n else n - 256.

(** [cred_blob[i]]: the pointer is indexed without a bound. The
    comprehension reads no further than index [CredentialBlobSize]. *)
Definition cred_blob_at (contents : WinCredential) (i : nat) : Z :=
  c_byte (nth i (CredentialBlob contents) (after_blob contents)).

(** [cred_blob[pos:pos+2]]: slicing a pointer gives the list of the two
    items, whatever the size of the blob. *)
Definition cred_blob_slice (contents : WinCredential) (pos : nat) : list Z :=
  [cred_blob_at contents pos; cred_blob_at contents (S pos)].

(** [int.from_bytes(chunk, 'little')]: the chunk must convert to [bytes]. *)
Definition from_bytes_little (chunk : list Z) : M Z :=
  if forallb (λ b, (0 <=? b) && (b <? 256)) chunk
  then ret (foldr (λ b acc, b + 256 * acc) 0 chunk)
  else raise (ValueError "bytes must be in range(0, 256)").

(** The comprehension, from [pos] on, for [count] more steps of 2. *)
Fixpoint password_from (contents : WinCredential) (pos count : nat)
  : M (list Z) :=
  match count with
  | O => ret []
  | S count' =>
      v <- from_bytes_little (cred_blob_slice contents pos);;
      vs <- password_from contents (2 + pos) count';;
      ret (v :: vs)
  end.

(** [[int.from_bytes(cred_blob[pos:pos+2], 'little')
      for pos in range(0, cred_blob_size, 2)]]; the range has
    [(cred_blob_size + 1) // 2] items. *)
Definition password_as_list (contents : WinCredential) : M (list Z) :=
  password_from contents 0 (Nat.div2 (S (CredentialBlobSize contents))).

(** [advapi32.CredReadW(name, GENERIC, 0, byref(cred_ptr))]; a NULL name
    finds nothing. *)
Definition CredReadW (w : world) (name : option string) : M (option WinCredential) :=
  let found : option WinCredential :=
    match name with
    | Some n => cred_store w !! n
    | None => None
    end in
  emit (EvCredRead name (match found with Some _ => true | None => false end));;;
  ret found.

Definition get_generic_credential (w : world) (name : option pyval)
  : M (option Credential) :=
  match name with
  | Some (PyInt _) | Some (PyInt64 _) | Some (PyOther _) =>
      raise (ArgumentError "argument 1: TypeError: wrong type")
  | Some (PyStr _) | None =>
      let target := match name with Some (PyStr n) => Some n | _ => None end in
      cred_ptr <- CredReadW w target;;
      match cred_ptr with
      | Some contents =>
          try_finally
            (let username := UserName contents in
             password <- password_as_list contents;;
             ret (Some {| username := username; password := password |}))
            (emit EvCredFree)
      | None => ret None
      end
  end.

(** [username, password = wincred.get_generic_credential(...)] *)
Definition unpack (c : option Credential) : M (option string * list Z) :=
  match c with
  | Some c => ret (username c, password c)
  | None => raise (TypeError "cannot unpack non-iterable NoneType object")
  end.

(** ** Authenticator *)

Inductive Session := RequestsSession.

Definition py_of_attr (v : attr_value) : pyval :=
  match v with
  | AttrStr s => PyStr s
  | AttrList _ => PyOther "list"
  end.

Definition login (w : world) : M Session :=
  let url := read_config_value "login_url" (config w) in
  let cred_name := read_config_value "ACME_credential_name" (config w) in
  match url with
  | None => raise (BusinessException "Unable to identify login URL in Config file.")
  | Some url =>
  match cred_name with
  | None =>
      raise (BusinessException
               "Unable to identify ACME credentail name in Config file.")
  | Some cred_name =>
      cred <- get_generic_credential w (Some cred_name);;
      up <- unpack cred;;
      match up.1 with
      | None =>
          raise (BusinessException
                   "Login credentials cannot be found in Windows Credential Manager.")
      | Some username =>
          let s := RequestsSession in
          response <- request w (GET url);;
          match find_in (λ n, is_tag "input" n && has_attr "name" "_token" n)
                        (soup_of response) with
          | None => raise (TypeError "'NoneType' object is not subscriptable")
          | Some input =>
              match tag_attrs (el_node input) !! "value" with
              | None => raise (KeyError "'value'")
              | Some token =>
                  response <- request w (POST url (py_of_attr token) username up.2);;
                  if bool_decide (status_code response ≠ 200)
                  then raise (Exception "Unable to login into ACME Website.")
                  else ret s
              end
          end
      end
  end
  end.

(** ** Paginated scraper *)

(** The cells of one [<tr>]: [[ele.text.strip() for ele in row.find_all('td')]] *)
Definition row_cells (row : node) : list string :=
  (λ ele, strip (text ele)) <$> find_all "td" row.

(** The rows one page adds to the accumulator. *)
Definition table_rows (table_body : node) : list (list string) :=
  row_cells <$> find_all "tr" table_body.

Definition is_pagination (n : node) : bool :=
  is_tag "ul" n && has_attr "class" "page-numbers" n.

Definition is_current_page (n : node) : bool :=
  is_tag "li" n && has_attr "aria-current" "page" n.

(** The [try] block around the next-page lookup: any [None] met on the way
    raises inside it and yields [''], but a link without [href] yields the
    [None] of [.get('href')]. *)
Definition next_url_of (active_pg : option element) : option pyval :=
  match active_pg with
  | None => Some (PyStr "")
  | Some active =>
      match findNextSibling "li" active with
      | None => Some (PyStr "")
      | Some li =>
          match find_in (is_tag "a") (el_node li) with
          | None => Some (PyStr "")
          | Some a => py_of_attr <$> tag_attrs (el_node a) !! "href"
          end
      end
  end.

(** The [while condition] loop; [fuel] bounds the number of iterations. *)
Fixpoint scrape_loop (fuel : nat) (w : world) (session : Session)
    (url : option pyval) (row_data : list (list string))
  : M (list (list string) * node) :=
  match fuel with
  | O => halt_with OutOfFuel
  | S fuel' =>
      match url with
      | None => raise (BusinessException "Unable to identify the URL for extraction.")
      | Some u =>
          page <- request w (GET u);;
          if bool_decide (status_code page ≠ 200)
          then raise (BusinessException "Unable to extract data from provided URL.")
          else
            let soup := soup_of page in
            match find_in (is_tag "table") soup with
            | None =>
                raise (AttributeError "'NoneType' object has no attribute 'find_all'")
            | Some table_body =>
                let row_data := row_data ++ table_rows (el_node table_body) in
                match find_in is_pagination soup with
                | None =>
                    raise (AttributeError "'NoneType' object has no attribute 'find'")
                | Some pg =>
                    let active_pg := find_in is_current_page (el_node pg) in
                    let next_url := next_url_of active_pg in
                    if bool_decide (next_url ≠ Some (PyStr ""))
                    then scrape_loop fuel' w session next_url row_data
                    else ret (row_data, soup)
                end
            end
      end
  end.

(** *** The pandas steps *)

Definition table_width (data : list (list string)) : nat :=
  foldr Nat.max 0%nat (length <$> data).

Definition pad_row (k : nat) (row : list string) : list (option string) :=
  (Some <$> row) ++ replicate (k - length row) None.

(** [pd.DataFrame(data, columns=cols)] on a list of lists: short rows are
    filled with [None] up to the longest, and the labels must be as many. *)
Definition pd_DataFrame (data : list (list string)) (cols : list string)
  : result DataFrame :=
  match data with
  | [] => Ret {| columns := cols; rows := [] |}
  | _ :: _ =>
      let k := table_width data in
      if bool_decide (length cols = k)
      then Ret {| columns := cols;
                  rows := imap (λ i row, (i, pad_row k row)) data |}
      else Raise (ValueError (pretty (length cols) +:+ " columns passed, passed data had "
                              +:+ pretty k +:+ " columns"))
  end.

Fixpoint positions_from (i : nat) (label : string) (cols : list string) : list nat :=
  match cols with
  | [] => []
  | c :: rest =>
      if bool_decide (c = label) then i :: positions_from (S i) label rest
      else positions_from (S i) label rest
  end.

(** The mask [results['Status'] == 'Open'] on one row, Status being column [j]. *)
Definition is_open (j : nat) (row : nat * list (option string)) : Prop :=
  row.2 !! j = Some (Some "Open").

#[global] Instance is_open_dec j row : Decision (is_open j row).
Proof. unfold is_open. apply _. Defined.

(** [results[results['Status'] == 'Open']]. With one column labelled
    Status the mask is a Series and selects rows. With several the mask is
    itself a frame, which [where] aligns with [results]: the labels of the
    two differ and reindexing on repeated labels raises. Only when every
    label reads Status do mask and frame carry the same labels; what pandas
    does then is left out of this embedding. *)
Definition filter_open (results : DataFrame) : result DataFrame :=
  match positions_from 0 "Status" (columns results) with
  | [] => Raise (KeyError "'Status'")
  | [j] => Ret {| columns := columns results;
                  rows := filter (is_open j) (rows results) |}
  | _ :: _ :: _ =>
      if bool_decide (Forall (λ c, c = "Status") (columns results))
      then Halt BeyondModel
      else Raise (ValueError "cannot reindex on an axis with duplicate labels")
  end.

Fixpoint select {A} (mask : list bool) (l : list A) : list A :=
  match mask, l with
  | b :: mask', x :: l' => if b then x :: select mask' l' else select mask' l'
  | _, _ => []
  end.

(** [results.loc[:, results.columns != 'Actions']] *)
Definition drop_actions (results : DataFrame) : DataFrame :=
  let mask := (λ c, bool_decide (c ≠ "Actions")) <$> columns results in
  {| columns := select mask (columns results);
     rows := (λ r, (r.1, select mask r.2)) <$> rows results |}.

(** [soup.find_all('th')], stripped. *)
Definition header_cells (soup : node) : list string :=
  (λ i, strip (text i)) <$> find_all "th" soup.

Definition scraping (fuel : nat) (w : world) (session : Session) : M DataFrame :=
  let url := read_config_value "extract_url" (config w) in
  acc <- scrape_loop fuel w session url [];;
  let headers := header_cells acc.2 in
  results <- lift (pd_DataFrame acc.1 headers);;
  results <- lift (filter_open results);;
  ret (drop_actions results).

(** ** Persistence sink *)

Definition dq : string := String (ascii_of_nat 34) EmptyString.

(** ['...' + v] for a configuration value. *)
Definition concat_str (v : pyval) : M string :=
  match v with
  | PyStr s => ret s
  | PyInt _ =>
      raise (TypeError ("can only concatenate str (not " +:+ dq +:+ "int" +:+ dq
                        +:+ ") to str"))
  | PyInt64 _ =>
      raise (TypeError ("can only concatenate str (not " +:+ dq +:+ "numpy.int64"
                        +:+ dq +:+ ") to str"))
  | PyOther ty =>
      raise (TypeError ("can only concatenate str (not " +:+ dq +:+ ty +:+ dq
                        +:+ ") to str"))
  end.

(** [row.<label>] on the Series that [iterrows] yields. *)
Definition getattr_row (cols : list string) (cells : list (option string))
    (label : string) : M param :=
  match positions_from 0 label cols with
  | [] =>
      raise (AttributeError ("'Series' object has no attribute '" +:+ label +:+ "'"))
  | [j] => ret (Scalar (default None (cells !! j)))
  | js => ret (SubSeries ((λ j, default None (cells !! j)) <$> js))
  end.

Definition insert_sql : string :=
  "INSERT INTO [acme_work_items] (WIID, Description, Type, Status, Date) values(?,?,?,?,?)".

(** [for index, row in results.iterrows(): cursor.execute(...)] *)
Fixpoint insert_rows (w : world) (cols : list string)
    (rws : list (nat * list (option string))) : M unit :=
  match rws with
  | [] => ret tt
  | row :: rest =>
      wiid <- getattr_row cols row.2 "WIID";;
      description <- getattr_row cols row.2 "Description";;
      type <- getattr_row cols row.2 "Type";;
      status <- getattr_row cols row.2 "Status";;
      date <- getattr_row cols row.2 "Date";;
      db_call w (DbExecute insert_sql [wiid; description; type; status; date]);;;
      insert_rows w cols rest
  end.

Definition insert_into_db (w : world) (results : DataFrame) : M unit :=
  if (0 <? length (rows results))%nat then
    let cred_name := read_config_value "DB_credential_name" (config w) in
    let server := read_config_value "DB_server_name" (config w) in
    cred <- get_generic_credential w cred_name;;
    up <- unpack cred;;
    let database := "Automations" in
    match server, up.1 with
    | Some server, Some username =>
        server <- concat_str server;;
        db_call w (DbConnect server database username up.2);;;
        db_call w DbCursor;;;
        insert_rows w (columns results) (rows results);;;
        db_call w DbCommit;;;
        db_call w DbCursorClose
    | _, _ =>
        raise (BusinessException
                 "Unable to identify required parameters for SQL Server connection.")
    end
  else
    raise (BusinessException
             "There are no work items available in ACME website to extract").

(** ** Notifier *)

(** [msg.as_string()]: the generator encodes every header value, and the
    recipients, the one header that comes from the configuration as it is,
    may be an [int]. Header values are taken to hold no line break. *)
Definition as_string (msg : message) : M message :=
  match msg_to msg with
  | PyStr _ => ret msg
  | PyInt _ => raise (AttributeError "'int' object has no attribute 'encode'")
  | PyInt64 _ =>
      raise (AttributeError "'numpy.int64' object has no attribute 'encode'")
  | PyOther ty =>
      raise (AttributeError ("'" +:+ ty +:+ "' object has no attribute 'encode'"))
  end.

Definition send_email (w : world) (user_type subject content : string)
    (attachment_name : option string) (file : option DataFrame) : M unit :=
  let SERVER := read_config_value "email_server_name" (config w) in
  let PORT := read_config_value "email_port" (config w) in
  let cred_name := read_config_value "email_credential_name" (config w) in
  cred <- get_generic_credential w cred_name;;
  up <- unpack cred;;
  let TO :=
    if bool_decide (user_type = "business")
    then read_config_value "business_users" (config w)
    else read_config_value "technical_users" (config w) in
  match SERVER, PORT, up.1, TO with
  | Some SERVER, Some PORT, Some username, Some TO =>
      let msg := {| msg_subject := subject;
                    msg_from := username;
                    msg_to := TO;
                    msg_attachment := (λ f, (attachment_name, f)) <$> file;
                    msg_html := content |} in
      smtp_call w (SmtpConnect SERVER PORT);;;
      smtp_call w SmtpEhlo;;;
      smtp_call w SmtpStarttls;;;
      smtp_call w (SmtpLogin username up.2);;;
      text <- as_string msg;;
      smtp_call w (SmtpSendmail username TO text);;;
      smtp_call w SmtpQuit
  | _, _, _, _ =>
      raise (BusinessException
               "Unable to identify required parameters for email SMPT settings.")
  end.

(** ** Orchestrator *)

Definition init_subject : string :=
  "ACME Work items Extraction Process - Initialization".
Definition init_content : string :=
  "<p>Dear All,</p>" +:+
  "<p>Please be noted that <b>ACME Work items Extraction Process</b>" +:+
  " has been initialized.</p>" +:+
  "<p>Thanks and Regards,<br>BOT</p>".

Definition completion_subject : string :=
  "ACME Work items Extraction Process - Completion".
Definition completion_content : string :=
  "<p>Dear All,</p>" +:+
  "<p><b>ACME Work items Extraction Process</b>" +:+
  " has been completed. Please find attached file with extracted work items.</p>" +:+
  "<p>Thanks and Regards,<br>BOT</p>".

Definition business_subject : string :=
  "ACME Work items Extraction Process - Business Exception".
Definition technical_subject : string :=
  "ACME Work items Extraction Process - Technical Exception".
Definition failure_content (ex : exn) : string :=
  "<p>Dear All,</p>" +:+
  "<p>Please be noted that bot execution failed " +:+
  "due to below error.</p><p>Error Message: " +:+ exn_str ex +:+
  "</p><p>Thanks and Regards,<br>BOT</p>".

(** ['BusinessException' in str(type(ex))] *)
Definition is_business (ex : exn) : bool :=
  str_in "BusinessException" (str_type ex).

(** The [try] block of [main]. *)
Definition main_body (fuel : nat) (w : world) : M unit :=
  send_email w "business" init_subject init_content None None;;;
  session <- login w;;
  results <- scraping fuel w session;;
  insert_into_db w results;;;
  send_email w "business" completion_subject completion_content
             (Some "work_items.csv") (Some results).

(** The [except Exception as ex] block of [main]. *)
Definition main_handler (w : world) (ex : exn) : M unit :=
  if is_business ex
  then send_email w "business" business_subject (failure_content ex) None None
  else send_email w "technical" technical_subject (failure_content ex) None None.

Definition main (fuel : nat) (w : world) : M unit :=
  try_except (main_body fuel w) (main_handler w).

(** ** Fixtures: a three-page listing and a configured world *)

Module Fixture.

Definition elt (name : string) (attrs : list (string * attr_value))
    (contents : list node) : node :=
  Tag name (list_to_map attrs) contents.

Definition th (s : string) : node := elt "th" [] [NavigableString s].
Definition td (s : string) : node := elt "td" [] [NavigableString s].

Definition header_row : node :=
  elt "tr" [] [th "WIID"; th "Description"; th "Type"; th "Status";
               th "Date"; th "Actions"].

Definition item (wiid description type status date : string) : node :=
  elt "tr" [] [td wiid; td description; td type; td status; td date;
               elt "td" [] [elt "a" [("href", AttrStr "/work-items/open")]
                                    [NavigableString "Open"]]].

Definition page_link (href label : string) : node :=
  elt "li" [] [elt "a" [("class", AttrList ["page-numbers"]);
                        ("href", AttrStr href)] [NavigableString label]].

Definition current (label : string) : node :=
  elt "li" [("aria-current", AttrStr "page")]
      [elt "span" [("class", AttrList ["page-numbers"; "current"])]
           [NavigableString label]].

Definition nl : node := NavigableString (String (ascii_of_nat 10) EmptyString).

Definition page (items pager : list node) : node :=
  Tag "[document]" ∅
    [elt "html" []
       [elt "body" []
          [elt "table" [("class", AttrList ["table"])] (header_row :: items);
           nl;
           elt "ul" [("class", AttrList ["page-numbers"])] pager]]].

Definition url1 : string := "https://acme-test.uipath.com/work-items".
Definition url2 : string := "https://acme-test.uipath.com/work-items?page=2".
Definition url3 : string := "https://acme-test.uipath.com/work-items?page=3".

Definition page1 : node :=
  page [item " 101 " "Calculate Client Security Hash" "WI5" "Open" "2020-01-05";
        item "102" "Verify Account Position" "WI1" "Closed" "2020-01-07"]
       [current "1"; nl; page_link url2 "2"; nl; page_link url3 "3"].

Definition page2 : node :=
  page [item "103" "Process Vendor Invoices" "WI4" "Open" "2020-02-11"]
       [page_link url1 "1"; nl; current "2"; nl; page_link url3 "3"].

Definition page3 : node :=
  page [item "104" "Generate Yearly Report" "WI2" "Completed" "2020-03-02";
        item "105" "Update Client Records" "WI3" "Open" "2020-03-09"]
       [page_link url1 "1"; nl; page_link url2 "2"; nl; current "3"].

Definition login_url : string := "https://acme-test.uipath.com/login".

Definition login_page : node :=
  Tag "[document]" ∅
    [elt "form" []
       [elt "input" [("name", AttrStr "_token"); ("value", AttrStr "abc123")] [];
        elt "input" [("name", AttrStr "email")] [];
        elt "input" [("name", AttrStr "password")] []]].

Definition not_found : exn + response :=
  inr {| status_code := 404; soup_of := Tag "[document]" ∅ [] |}.

(** Page 3 with a closing entry whose link carries no [href]. *)
Definition page3_nohref : node :=
  page [item "104" "Generate Yearly Report" "WI2" "Completed" "2020-03-02";
        item "105" "Update Client Records" "WI3" "Open" "2020-03-09"]
       [page_link url1 "1"; nl; page_link url2 "2"; nl; current "3"; nl;
        elt "li" [] [elt "a" [("class", AttrList ["next"; "page-numbers"])]
                             [NavigableString "Next"]]].

(** Page 3 with no pagination list. *)
Definition page3_unpaged : node :=
  Tag "[document]" ∅
    [elt "html" []
       [elt "body" []
          [elt "table" []
               [header_row;
                item "105" "Update Client Records" "WI3" "Open" "2020-03-09"]]]].

(** The site: the login form, the three list pages ([third] being the
    last), 404 elsewhere; the credential POST is answered with
    [post_status]. *)
Definition site_with (third : node) (post_status : Z) (req : http_request)
  : exn + response :=
  match req with
  | GET (PyStr u) =>
      if bool_decide (u = login_url)
      then inr {| status_code := 200; soup_of := login_page |}
      else if bool_decide (u = url1)
      then inr {| status_code := 200; soup_of := page1 |}
      else if bool_decide (u = url2)
      then inr {| status_code := 200; soup_of := page2 |}
      else if bool_decide (u = url3)
      then inr {| status_code := 200; soup_of := third |}
      else not_found
  | GET _ => inl (Exn "requests.exceptions.MissingSchema" "Invalid URL")
  | POST _ _ _ _ => inr {| status_code := post_status; soup_of := login_page |}
  end.

Definition site : Z → http_request → exn + response := site_with page3.

Definition setting (name value : string) : config_row :=
  {| Name := PyStr name; Value := PyStr value |}.

Definition settings : list config_row :=
  [ setting "login_url" login_url;
    setting "extract_url" url1;
    setting "ACME_credential_name" "ACME";
    setting "DB_credential_name" "SQLServer";
    setting "DB_server_name" "localhost";
    setting "email_server_name" "smtp.gmail.com";
    {| Name := PyStr "email_port"; Value := PyInt 587 |};
    setting "email_credential_name" "Gmail";
    setting "business_users" "business@example.com";
    setting "technical_users" "technical@example.com" ].

(** [pw] as UTF-16LE bytes. *)
Definition blob_pw : list byte := [x70; x00; x77; x00].

Definition entry (user : option string) (blob : list byte) : WinCredential :=
  {| UserName := user; CredentialBlob := blob; after_blob := x00 |}.

Definition vault : gmap string WinCredential :=
  list_to_map
    [ ("ACME", entry (Some "bot@example.com") blob_pw);
      ("SQLServer", entry (Some "sa") blob_pw);
      ("Gmail", entry (Some "bot@gmail.com") blob_pw) ].

Definition world0 : world :=
  {| config := settings;
     cred_store := vault;
     http := site 200;
     db := λ _, None;
     smtp := λ _, None |}.

Definition world_with_site (h : http_request → exn + response) : world :=
  {| config := settings;
     cred_store := vault;
     http := h;
     db := λ _, None;
     smtp := λ _, None |}.

(** An entry whose password holds a code unit above 0x7F ([p] and e-acute),
    read through a signed [BYTE]: 0xE9 comes out as -23. *)
Definition world_signed_blob : world :=
  {| config := settings;
     cred_store :=
       {[ "ACME" := entry (Some "bot@example.com") [x70; x00; xe9; x00] ]};
     http := site 200;
     db := λ _, None;
     smtp := λ _, None |}.

(** No entry in the credential manager. *)
Definition world_empty_vault : world :=
  {| config := settings;
     cred_store := ∅;
     http := site 200;
     db := λ _, None;
     smtp := λ _, None |}.

(** The collection that [scraping] returns on the three-page listing. *)
Definition open_items : DataFrame :=
  {| columns := ["WIID"; "Description"; "Type"; "Status"; "Date"];
     rows := [ (1%nat, [Some "101"; Some "Calculate Client Security Hash";
                        Some "WI5"; Some "Open"; Some "2020-01-05"]);
               (4%nat, [Some "103"; Some "Process Vendor Invoices";
                        Some "WI4"; Some "Open"; Some "2020-02-11"]);
               (7%nat, [Some "105"; Some "Update Client Records";
                        Some "WI3"; Some "Open"; Some "2020-03-09"]) ] |}.

(** A Settings sheet whose Value column holds integers only: pandas reads
    the column as int64. *)
Definition numbers_only : list config_row :=
  [ {| Name := PyStr "email_port"; Value := PyInt64 587 |};
    {| Name := PyStr "retries"; Value := PyInt64 3 |} ].

(** The configuration without one of its rows. *)
Definition settings_without (key : string) : list config_row :=
  filter (λ r, Name r ≠ PyStr key) settings.

Definition world_without (key : string) : world :=
  {| config := settings_without key;
     cred_store := vault;
     http := site 200;
     db := λ _, None;
     smtp := λ _, None |}.

(** A database that refuses every INSERT. *)
Definition world_db_refuses : world :=
  {| config := settings;
     cred_store := vault;
     http := site 200;
     db := λ op, match op with
                 | DbExecute _ _ =>
                     Some (Exn "pyodbc.IntegrityError" "Violation of PRIMARY KEY constraint")
                 | _ => None
                 end;
     smtp := λ _, None |}.

Definition listing : list (pyval * response) :=
  [ (PyStr url1, {| status_code := 200; soup_of := page1 |});
    (PyStr url2, {| status_code := 200; soup_of := page2 |});
    (PyStr url3, {| status_code := 200; soup_of := page3 |}) ].

End Fixture.

(** ** Notions the properties are stated with *)

(** What the specification asks of a lookup: exactly one row is named [key],
    its value is not the empty string, and is a string or an integer. *)
Definition holds_string_or_integer (key : string) (config : list config_row)
    (v : pyval) : Prop :=
  length (filter (λ r, Name r = PyStr key) config) = 1%nat
  ∧ (∃ r, r ∈ config ∧ Name r = PyStr key ∧ Value r = v)
  ∧ v ≠ PyStr ""
  ∧ ((∃ s, v = PyStr s) ∨ (∃ z, v = PyInt z) ∨ (∃ z, v = PyInt64 z)).

(** What the code asks: the same, with a value whose type is [str] or [int]
    itself. *)
Definition configured (key : string) (config : list config_row) (v : pyval) : Prop :=
  length (filter (λ r, Name r = PyStr key) config) = 1%nat
  ∧ (∃ r, r ∈ config ∧ Name r = PyStr key ∧ Value r = v)
  ∧ v ≠ PyStr ""
  ∧ ((∃ s, v = PyStr s) ∨ (∃ z, v = PyInt z)).

(** What one iteration of the loop reads off a fetched page. *)
Definition page_table (page : response) : option element :=
  find_in (is_tag "table") (soup_of page).

Definition page_trs (page : response) : list node :=
  match page_table page with
  | Some table_body => find_all "tr" (el_node table_body)
  | None => []
  end.

Definition page_rows (page : response) : list (list string) :=
  row_cells <$> page_trs page.

(** The current-page marker the loop looks for, when the page has a
    pagination list at all. *)
Definition page_marker (page : response) : option (option element) :=
  (λ pg, find_in is_current_page (el_node pg))
    <$> find_in is_pagination (soup_of page).

(** The value of [next_url] after the lookup. *)
Definition page_next (page : response) : option (option pyval) :=
  next_url_of <$> page_marker page.

(** The ways a next-page lookup comes out empty-handed: no current-page
    marker; no [<li>] after it; no [<a>] in that [<li>]; an empty [href]. *)
Definition exhausted (active_pg : option element) : Prop :=
  active_pg = None
  ∨ (∃ active, active_pg = Some active ∧ findNextSibling "li" active = None)
  ∨ (∃ active li,
       active_pg = Some active ∧ findNextSibling "li" active = Some li
       ∧ find_in (is_tag "a") (el_node li) = None)
  ∨ (∃ active li a,
       active_pg = Some active ∧ findNextSibling "li" active = Some li
       ∧ find_in (is_tag "a") (el_node li) = Some a
       ∧ tag_attrs (el_node a) !! "href" = Some (AttrStr "")).

(** The one way it comes out with Python's [None]: a link without [href]. *)
Definition link_without_href (active_pg : option element) : Prop :=
  ∃ active li a,
    active_pg = Some active ∧ findNextSibling "li" active = Some li
    ∧ find_in (is_tag "a") (el_node li) = Some a
    ∧ tag_attrs (el_node a) !! "href" = None.

Definition fetch_ok (w : world) (u : pyval) (page : response) : Prop :=
  http w (GET u) = inr page ∧ status_code page = 200 ∧ is_Some (page_table page).

(** A paginated listing as the loop walks it from [u]: every page answers
    200 with a table and a pagination list; each page but the last names
    its successor, and the lookup on the last one is [exhausted]. *)
Inductive crawl (w : world) : pyval → list (pyval * response) → Prop :=
| crawl_last u page active_pg :
    fetch_ok w u page →
    page_marker page = Some active_pg →
    exhausted active_pg →
    crawl w u [(u, page)]
| crawl_next u page next rest :
    fetch_ok w u page →
    page_next page = Some (Some next) →
    next ≠ PyStr "" →
    crawl w next rest →
    crawl w u ((u, page) :: rest).

Definition fetches (pages : list (pyval * response)) : trace :=
  (λ p, EvHttp (GET p.1)) <$> pages.

Definition crawled_rows (pages : list (pyval * response)) : list (list string) :=
  concat ((λ p, page_rows p.2) <$> pages).

Definition final_soup (pages : list (pyval * response)) : node :=
  match last pages with
  | Some p => soup_of p.2
  | None => NavigableString ""
  end.


(** A record: the labels of a frame zipped with the cells of one row, under
    the row's index label. *)
Definition record : Type := nat * list (string * option string).

Definition records (df : DataFrame) : list record :=
  (λ r, (r.1, zip (columns df) r.2)) <$> rows df.

Definition status_open (rec : record) : Prop :=
  ("Status", Some "Open") ∈ rec.2.

Definition without_actions (rec : record) : record :=
  (rec.1, filter (λ p, p.1 ≠ "Actions") rec.2).

(** What a returning [scraping] has done: it walked [pages] from the
    configured URL, and built [frame] from the rows of all pages and the
    header cells of the last soup, before filtering. *)
Definition scraped (w : world) (t t' : trace)
    (pages : list (pyval * response)) (frame : DataFrame) : Prop :=
  ∃ u, read_config_value "extract_url" (config w) = Some u
       ∧ crawl w u pages
       ∧ t' = t ++ fetches pages
       ∧ pd_DataFrame (crawled_rows pages) (header_cells (final_soup pages))
         = Ret frame.









(** The bytes a retrieval reads: the blob and, when its size is odd, the
    byte that follows it. *)
Definition bytes_read (contents : WinCredential) : list byte :=
  CredentialBlob contents
  ++ (if Nat.odd (CredentialBlobSize contents) then [after_blob contents] else []).

(** A byte below 0x80: the bytes that a signed read leaves as they are. *)
Definition seven_bit (b : byte) : Prop := (Byte.to_N b < 128)%N.

#[global] Instance seven_bit_dec b : Decision (seven_bit b).
Proof. unfold seven_bit. apply _. Defined.

(** The 16-bit units of a sequence of bytes, low byte first. *)
Fixpoint units (bs : list byte) : list Z :=
  match bs with
  | lo :: hi :: rest =>
      (Z.of_N (Byte.to_N lo) + 256 * Z.of_N (Byte.to_N hi)) :: units rest
  | _ => []
  end.

(** The password of an entry whose bytes read as they are. *)
Definition code_points (contents : WinCredential) : list Z :=
  units (bytes_read contents).

Definition bad_bytes : exn := ValueError "bytes must be in range(0, 256)".

(** The calls on the credential manager that one retrieval may leave in the
    trace: none, a read that finds nothing, or a read followed by the free. *)
Definition credential_calls (evs : trace) : Prop :=
  evs = []
  ∨ (∃ name, evs = [EvCredRead name false])
  ∨ (∃ name, evs = [EvCredRead name true; EvCredFree]).

(** The messages handed to [sendmail], in order. *)
Definition mails (t : trace) : list message :=
  omap (λ ev, match ev with
              | EvSmtp (SmtpSendmail _ _ msg) => Some msg
              | _ => None
              end) t.

Definition login_rejected : exn := Exception "Unable to login into ACME Website.".
Definition cannot_unpack : exn := TypeError "cannot unpack non-iterable NoneType object".

(** ** Persistence sink, in the terms of the properties *)

Definition item_labels : list string :=
  ["WIID"; "Description"; "Type"; "Status"; "Date"].

(** The value [row.<label>] passes to [execute]. *)
Definition field_param (cols : list string) (cells : list (option string))
    (label : string) : param :=
  match positions_from 0 label cols with
  | [j] => Scalar (default None (cells !! j))
  | js => SubSeries ((λ j, default None (cells !! j)) <$> js)
  end.

Definition insert_event (cols : list string) (row : nat * list (option string))
  : event :=
  EvDb (DbExecute insert_sql (field_param cols row.2 <$> item_labels)).

Definition no_items : exn :=
  BusinessException "There are no work items available in ACME website to extract".
Definition no_db_parameters : exn :=
  BusinessException "Unable to identify required parameters for SQL Server connection.".

(** The ODBC calls of a trace, in order. *)
Definition db_ops (t : trace) : list db_op :=
  omap (λ ev, match ev with EvDb op => Some op | _ => None end) t.

Definition is_execute (op : db_op) : Prop :=
  ∃ params, op = DbExecute insert_sql params.

Definition is_connect (op : db_op) : Prop :=
  ∃ server database uid pwd, op = DbConnect server database uid pwd.

(** ** Orchestrator, in the terms of the properties *)

(** The configuration key of an audience's recipients. *)
Definition recipients_key (user_type : string) : string :=
  if bool_decide (user_type = "business") then "business_users"
  else "technical_users".

Definition audience (ex : exn) : string :=
  if is_business ex then "business" else "technical".

(** The failure notification for [ex], from [user] to [TO]. *)
Definition failure_mail (ex : exn) (user : string) (TO : pyval) : message :=
  {| msg_subject := if is_business ex then business_subject else technical_subject;
     msg_from := user;
     msg_to := TO;
     msg_attachment := None;
     msg_html := failure_content ex |}.

Definition no_email_parameters : exn :=
  BusinessException "Unable to identify required parameters for email SMPT settings.".
Definition no_login_url : exn :=
  BusinessException "Unable to identify login URL in Config file.".

(** ** Notions for the properties of the remaining code *)

(** The SMTP calls of a trace, in order. *)
Definition smtp_ops (t : trace) : list smtp_op :=
  omap (λ ev, match ev with EvSmtp op => Some op | _ => None end) t.

(** The requests of a trace, in order. *)
Definition http_requests (t : trace) : list http_request :=
  omap (λ ev, match ev with EvHttp req => Some req | _ => None end) t.

Definition is_cred_event (ev : event) : Prop :=
  match ev with EvCredRead _ _ | EvCredFree => True | _ => False end.

Definition is_http_event (ev : event) : Prop :=
  match ev with EvHttp _ => True | _ => False end.

Definition is_get_event (ev : event) : Prop :=
  match ev with EvHttp (GET _) => True | _ => False end.

Definition is_db_event (ev : event) : Prop :=
  match ev with EvDb _ => True | _ => False end.

Definition is_smtp_event (ev : event) : Prop :=
  match ev with EvSmtp _ => True | _ => False end.

(** A listing walked from [u] up to, and not including, the page at [v]. *)
Inductive crawl_to (w : world) : pyval → list (pyval * response) → pyval → Prop :=
| crawl_to_here u : crawl_to w u [] u
| crawl_to_next u page next rest v :
    fetch_ok w u page →
    page_next page = Some (Some next) →
    next ≠ PyStr "" →
    crawl_to w next rest v →
    crawl_to w u ((u, page) :: rest) v.

Definition fetch_refused : exn :=
  BusinessException "Unable to extract data from provided URL.".
Definition no_extract_url : exn :=
  BusinessException "Unable to identify the URL for extraction.".

(** Where the fields of a credential POST come from: the URL and the
    credential name from the configuration, the user and password from the
    credential manager, the token from the form fetched at that URL. *)
Definition posted_from_form (w : world) (url tok : pyval) (user : string)
    (pw : list Z) : Prop :=
  read_config_value "login_url" (config w) = Some url
  ∧ ∃ name contents form input v,
      read_config_value "ACME_credential_name" (config w) = Some (PyStr name)
      ∧ cred_store w !! name = Some contents
      ∧ UserName contents = Some user
      ∧ pw = code_points contents
      ∧ http w (GET url) = inr form
      ∧ find_in (λ n, is_tag "input" n && has_attr "name" "_token" n) (soup_of form)
        = Some input
      ∧ tag_attrs (el_node input) !! "value" = Some v
      ∧ tok = py_of_attr v.

(** The ODBC calls a run of [insert_into_db] over [n] records can have made
    when it ends with [r]: none; the connection; the connection, the cursor
    and some INSERTs; all [n] INSERTs and the commit; or all of these and
    the closing of the cursor, which is the one case where it returns. *)
Definition insert_shape (n : nat) (r : result unit) (ops : list db_op) : Prop :=
  (ops = [] ∧ r ≠ Ret tt)
  ∨ ∃ connect, is_connect connect ∧
      ((ops = [connect] ∧ r ≠ Ret tt)
       ∨ ∃ execs, Forall is_execute execs ∧
           ((ops = [connect; DbCursor] ++ execs ∧ (length execs ≤ n)%nat
             ∧ r ≠ Ret tt)
            ∨ (length execs = n
               ∧ ops = [connect; DbCursor] ++ execs ++ [DbCommit] ∧ r ≠ Ret tt)
            ∨ (length execs = n
               ∧ ops = [connect; DbCursor] ++ execs ++ [DbCommit; DbCursorClose]
               ∧ r = Ret tt))).

(** The message of the ValueError of [pd.DataFrame]. *)
Definition width_message (passed had : nat) : string :=
  pretty passed +:+ " columns passed, passed data had " +:+ pretty had +:+ " columns".

Definition wrong_width (pages : list (pyval * response)) : exn :=
  ValueError (width_message (length (header_cells (final_soup pages)))
                            (table_width (crawled_rows pages))).


(** ** Further fixtures *)

Module Cases.

(** Page 3 whose table has no header row. *)
Definition page3_headless : node :=
  Fixture.page
    []
    [Fixture.page_link Fixture.url1 "1"; Fixture.nl;
     Fixture.page_link Fixture.url2 "2"; Fixture.nl; Fixture.current "3"].

Definition page3_rows_only : node :=
  match page3_headless with
  | Tag d a [Tag h ha [Tag b ba (Tag tb ta _ :: rest)]] =>
      Tag d a [Tag h ha [Tag b ba
        (Tag tb ta [Fixture.item "105" "Update Client Records" "WI3" "Open"
                                 "2020-03-09"] :: rest)]]
  | other => other
  end.

(** Page 3 whose fourth header reads State. *)
Definition page3_state : node :=
  match page3_headless with
  | Tag d a [Tag h ha [Tag b ba (Tag tb ta _ :: rest)]] =>
      Tag d a [Tag h ha [Tag b ba
        (Tag tb ta
           [Fixture.elt "tr" []
              [Fixture.th "WIID"; Fixture.th "Description"; Fixture.th "Type";
               Fixture.th "State"; Fixture.th "Date"; Fixture.th "Actions"];
            Fixture.item "105" "Update Client Records" "WI3" "Open" "2020-03-09"]
           :: rest)]]
  | other => other
  end.

(** The site with its third page gone. *)
Definition site_gone3 (req : http_request) : exn + response :=
  match req with
  | GET (PyStr u) =>
      if bool_decide (u = Fixture.url3) then Fixture.not_found
      else Fixture.site 200 req
  | _ => Fixture.site 200 req
  end.

Definition first_two : list (pyval * response) :=
  [ (PyStr Fixture.url1, {| status_code := 200; soup_of := Fixture.page1 |});
    (PyStr Fixture.url2, {| status_code := 200; soup_of := Fixture.page2 |}) ].

Definition listing_with (third : node) : list (pyval * response) :=
  first_two ++ [(PyStr Fixture.url3, {| status_code := 200; soup_of := third |})].

(** The collection of the fixture under the labels of the specification's
    data model, ID instead of WIID. *)
Definition items_by_id : DataFrame :=
  {| columns := ["ID"; "Description"; "Type"; "Status"; "Date"];
     rows := rows Fixture.open_items |}.

End Cases.

(** The three-page listing with the first two pages under other headers
    than the last. *)
Module Relabelled.

Definition other_header_row : node :=
  Fixture.elt "tr" []
    [Fixture.th "ID"; Fixture.th "Title"; Fixture.th "Kind"; Fixture.th "State";
     Fixture.th "Created"; Fixture.th "Actions"].

Definition page (header : node) (items pager : list node) : node :=
  Tag "[document]" ∅
    [Fixture.elt "html" []
       [Fixture.elt "body" []
          [Fixture.elt "table" [("class", AttrList ["table"])] (header :: items);
           Fixture.nl;
           Fixture.elt "ul" [("class", AttrList ["page-numbers"])] pager]]].

Definition page1 : node :=
  page other_header_row
       [Fixture.item " 101 " "Calculate Client Security Hash" "WI5" "Open"
                     "2020-01-05";
        Fixture.item "102" "Verify Account Position" "WI1" "Closed" "2020-01-07"]
       [Fixture.current "1"; Fixture.nl; Fixture.page_link Fixture.url2 "2";
        Fixture.nl; Fixture.page_link Fixture.url3 "3"].

Definition page2 : node :=
  page other_header_row
       [Fixture.item "103" "Process Vendor Invoices" "WI4" "Open" "2020-02-11"]
       [Fixture.page_link Fixture.url1 "1"; Fixture.nl; Fixture.current "2";
        Fixture.nl; Fixture.page_link Fixture.url3 "3"].

Definition site (req : http_request) : exn + response :=
  match req with
  | GET (PyStr u) =>
      if bool_decide (u = Fixture.url1)
      then inr {| status_code := 200; soup_of := page1 |}
      else if bool_decide (u = Fixture.url2)
      then inr {| status_code := 200; soup_of := page2 |}
      else Fixture.site 200 req
  | _ => Fixture.site 200 req
  end.

Definition listing : list (pyval * response) :=
  [ (PyStr Fixture.url1, {| status_code := 200; soup_of := page1 |});
    (PyStr Fixture.url2, {| status_code := 200; soup_of := page2 |});
    (PyStr Fixture.url3, {| status_code := 200; soup_of := Fixture.page3 |}) ].

End Relabelled.

(** ** Notifier and orchestrator: notions for the further properties *)

(** The message [send_email] composes. *)
Definition composed (subject : string) (user : string) (TO : pyval)
    (attachment_name : option string) (file : option DataFrame)
    (content : string) : message :=
  {| msg_subject := subject;
     msg_from := user;
     msg_to := TO;
     msg_attachment := (λ f, (attachment_name, f)) <$> file;
     msg_html := content |}.

(** The SMTP session of one [send_email], in the order of the code. *)
Definition smtp_session (SERVER PORT : pyval) (user : string) (pw : list Z)
    (TO : pyval) (msg : message) : list smtp_op :=
  [SmtpConnect SERVER PORT; SmtpEhlo; SmtpStarttls; SmtpLogin user pw;
   SmtpSendmail user TO msg; SmtpQuit].

(** The parameters [send_email] resolves before it opens a session. *)
Definition email_parameters (w : world) (user_type : string)
    (SERVER PORT : pyval) (user : string) (pw : list Z) (TO : pyval) : Prop :=
  read_config_value "email_server_name" (config w) = Some SERVER
  ∧ read_config_value "email_port" (config w) = Some PORT
  ∧ read_config_value (recipients_key user_type) (config w) = Some TO
  ∧ ∃ name contents,
      read_config_value "email_credential_name" (config w) = Some (PyStr name)
      ∧ cred_store w !! name = Some contents
      ∧ UserName contents = Some user
      ∧ pw = code_points contents.

(** What a run of [main] whose [try] block returns has done: two notices
    to the business recipients, the second carrying the collection [df]
    that [scraping] returned, and one database session that inserted one
    row per record of [df] and committed; [df] is not empty. *)
Definition completed_run (fuel : nat) (w : world) (evs : trace) : Prop :=
  ∃ df TO user1 user2 connect execs,
    (∃ t1 t2, scraping fuel w RequestsSession t1 = (Ret df, t2))
    ∧ rows df ≠ []
    ∧ read_config_value "business_users" (config w) = Some TO
    ∧ mails evs
      = [composed init_subject user1 TO None None init_content;
         composed completion_subject user2 TO (Some "work_items.csv") (Some df)
                  completion_content]
    ∧ db_ops evs = [connect; DbCursor] ++ execs ++ [DbCommit; DbCursorClose]
    ∧ is_connect connect
    ∧ Forall is_execute execs
    ∧ length execs = length (rows df).

(** ** Secret store and configuration: notions for the further properties *)

Definition byte_of (z : Z) : byte := default x00 (Byte.of_N (Z.to_N z)).

(** A password as Windows stores it: two bytes per code unit, low byte
    first. *)
Definition utf16le (code_units : list Z) : list byte :=
  flat_map (λ c, [byte_of (c `mod` 256); byte_of (c `div` 256)]) code_units.

Definition is_code_unit (c : Z) : Prop := 0 ≤ c < 65536.

(** A code unit whose two bytes are both below 0x80. *)
Definition both_below_0x80 (c : Z) : Prop := c `mod` 256 < 128 ∧ c `div` 256 < 128.

#[global] Instance both_below_0x80_dec c : Decision (both_below_0x80 c).
Proof. unfold both_below_0x80. apply _. Defined.

Definition no_attribute (label : string) : exn :=
  AttributeError ("'Series' object has no attribute '" +:+ label +:+ "'").

(** ** Authenticator: notions for the further properties *)

Definition is_token_input (n : node) : bool :=
  is_tag "input" n && has_attr "name" "_token" n.

(** The anti-forgery token of a login form, when it can be read. *)
Definition token_of (form : response) : option attr_value :=
  match find_in is_token_input (soup_of form) with
  | Some input => tag_attrs (el_node input) !! "value"
  | None => None
  end.

(** What [soup.find('input', {'name': '_token'})['value']] raises when it
    cannot: subscripting [None], or a missing key. *)
Definition token_error (form : response) : exn :=
  match find_in is_token_input (soup_of form) with
  | Some _ => KeyError "'value'"
  | None => TypeError "'NoneType' object is not subscriptable"
  end.

Definition credentials_not_found : exn :=
  BusinessException
    "Login credentials cannot be found in Windows Credential Manager.".

Module Cases2.

(** A login page whose form has no token field. *)
Definition login_page_plain : node :=
  Tag "[document]" ∅
    [Fixture.elt "form" []
       [Fixture.elt "input" [("name", AttrStr "email")] [];
        Fixture.elt "input" [("name", AttrStr "password")] []]].

Definition site_plain (req : http_request) : exn + response :=
  match req with
  | GET (PyStr u) =>
      if bool_decide (u = Fixture.login_url)
      then inr {| status_code := 200; soup_of := login_page_plain |}
      else Fixture.site 200 req
  | _ => Fixture.site 200 req
  end.

(** An entry whose blob has three bytes, followed in memory by 0x07: the
    second code unit is 0x77 + 256 * 0x07. *)
Definition world_odd_blob : world :=
  {| config := Fixture.settings;
     cred_store :=
       {[ "odd" := {| UserName := Some "bot@example.com";
                      CredentialBlob := [x70; x00; x77];
                      after_blob := x07 |} ]};
     http := Fixture.site 200;
     db := λ _, None;
     smtp := λ _, None |}.

(** An ACME entry that holds a password and no user name. *)
Definition world_nameless : world :=
  {| config := Fixture.settings;
     cred_store := {[ "ACME" := Fixture.entry None Fixture.blob_pw ]};
     http := Fixture.site 200;
     db := λ _, None;
     smtp := λ _, None |}.

End Cases2.

(** ** What a computation adds to the trace *)

(** Every event that [m] appends satisfies [Good], and a value it returns
    satisfies [P]. *)
Definition yields {A} (Good : event → Prop) (P : A → Prop) (m : M A) : Prop :=
  ∀ t r t', m t = (r, t') →
    (∃ evs, t' = t ++ evs ∧ Forall Good evs) ∧ ∀ a, r = Ret a → P a.

(** An INSERT with Open as its Status parameter; any other event passes. *)
Definition inserts_open (ev : event) : Prop :=
  ∀ sql params, ev = EvDb (DbExecute sql params) →
    sql = insert_sql
    ∧ ∃ wiid description type date,
        params = [wiid; description; type; Scalar (Some "Open"); date].

(** * Properties *)

(** Closed facts about the fixtures are settled by running the model. *)
Ltac evaluate := vm_compute; reflexivity.

(** Closed decidable facts, by running their decision procedure. *)
Ltac decided := apply (bool_decide_unpack _); vm_compute; exact I.

(** ** The document model: [find] is the head of [find_all] *)

Lemma find_in_head (p : node → bool) :
  ∀ n, el_node <$> find_in p n = head (filter (λ d, p d) (descendants n)).
Proof.
  fix IH 1. intros [s|name attrs cs]; [done|].
  simpl. induction cs as [|c cs IHcs]; [done|].
  simpl. rewrite filter_cons, filter_app.
  destruct (p c) eqn:Hp.
  - by rewrite decide_True.
  - rewrite decide_False by (by intros []).
    specialize (IH c).
    destruct (find_in p c) as [e|].
    + simpl in IH. destruct (filter _ (descendants c)); [done|].
      simpl in *. done.
    + simpl in IH. destruct (filter _ (descendants c)); [|done].
      simpl. exact IHcs.
Qed.

Lemma find_in_find_all name n :
  el_node <$> find_in (is_tag name) n = head (find_all name n).
Proof. apply find_in_head. Qed.

(** ** Config accessor *)

Example read_config_value_string :
  read_config_value "login_url" Fixture.settings = Some (PyStr Fixture.login_url).
Proof. reflexivity. Qed.

Example read_config_value_integer :
  read_config_value "email_port" Fixture.settings = Some (PyInt 587).
Proof. reflexivity. Qed.

Example read_config_value_no_row :
  read_config_value "smtp_timeout" Fixture.settings = None.
Proof. reflexivity. Qed.

Example read_config_value_two_rows :
  read_config_value "login_url"
    (Fixture.setting "login_url" "https://a" :: Fixture.settings) = None.
Proof. reflexivity. Qed.

Example read_config_value_empty_string :
  read_config_value "login_url" [Fixture.setting "login_url" ""] = None.
Proof. reflexivity. Qed.

Example read_config_value_empty_cell :
  read_config_value "login_url"
    [{| Name := PyStr "login_url"; Value := PyOther "float" |}] = None.
Proof. reflexivity. Qed.

Lemma is_str_or_int_spec v :
  is_str_or_int v = true ↔ (∃ s, v = PyStr s) ∨ (∃ z, v = PyInt z).
Proof.
  destruct v; simpl; split; intros H; eauto;
    try discriminate; destruct H as [[? ?]|[? ?]]; discriminate.
Qed.

Lemma read_config_value_Some key config v :
  read_config_value key config = Some v ↔ configured key config v.
Proof.
  unfold read_config_value, matching_values, configured.
  destruct (filter (λ r, Name r = PyStr key) config) as [|r [|r' l]] eqn:Hf; simpl.
  - split; [discriminate | intros [H _]; discriminate].
  - assert (Hr : r ∈ filter (λ r, Name r = PyStr key) config)
      by (rewrite Hf; apply list_elem_of_here).
    apply list_elem_of_filter in Hr as [Hname Hin].
    split.
    + intros H. destruct (bool_decide (Value r ≠ PyStr "")) eqn:Hne; [|discriminate].
      destruct (is_str_or_int (Value r)) eqn:Hty; [|discriminate].
      simpl in H. injection H as <-.
      apply bool_decide_eq_true in Hne. apply is_str_or_int_spec in Hty.
      eauto 10.
    + intros (_ & (r0 & Hin0 & Hname0 & Hval) & Hne & Hty).
      assert (H0 : r0 ∈ filter (λ r, Name r = PyStr key) config)
        by (apply list_elem_of_filter; auto).
      rewrite Hf in H0. apply list_elem_of_singleton in H0. subst r0.
      rewrite Hval. rewrite bool_decide_eq_true_2 by done.
      apply is_str_or_int_spec in Hty. by rewrite Hty.
  - split; [discriminate | intros [H _]; discriminate].
Qed.

(** C4 as the code has it: [read_config_value key] returns the stored value,
    unchanged, exactly when one row is named [key], its value is not the
    empty string and its type is [str] or [int]; in every other case, an
    integer of another type included, it returns [None]. *)
Theorem read_config_value_iff_configured (key : string) (config : list config_row) :
  (∀ v, read_config_value key config = Some v ↔ configured key config v)
  ∧ (read_config_value key config = None ↔ ¬ ∃ v, configured key config v).
Proof.
  split; [intros v; apply read_config_value_Some|].
  split.
  - intros HN [v Hv]. apply read_config_value_Some in Hv. congruence.
  - intros HN. destruct (read_config_value key config) as [v|] eqn:E; [|done].
    exfalso. apply HN. exists v. by apply read_config_value_Some.
Qed.

(** C4 fails as stated: in a sheet whose values are all integers the one
    row named email_port holds the integer 587, as a numpy.int64, and the
    lookup returns [None]. *)
Lemma read_config_value_misses_numpy_integer :
  holds_string_or_integer "email_port" Fixture.numbers_only (PyInt64 587)
  ∧ read_config_value "email_port" Fixture.numbers_only = None.
Proof.
  split; [|reflexivity].
  split; [reflexivity|]. split; [|split; [done|eauto]].
  eexists. split; [apply list_elem_of_here|done].
Qed.

(** ** Paginated scraper: the crawl *)

Lemma next_url_exhausted active_pg :
  next_url_of active_pg = Some (PyStr "") ↔ exhausted active_pg.
Proof.
  unfold next_url_of, exhausted. split.
  - destruct active_pg as [active|]; [|by left].
    destruct (findNextSibling "li" active) as [li|] eqn:Hli; [|right; left; eauto].
    destruct (find_in (is_tag "a") (el_node li)) as [a|] eqn:Ha;
      [|right; right; left; eauto].
    destruct (tag_attrs (el_node a) !! "href") as [[href|tokens]|] eqn:Hhref;
      simpl; intros [= ->].
    right; right; right. eauto 10.
  - intros [->|[(active & -> & ->)|[(active & li & -> & -> & ->)
                                   |(active & li & a & -> & -> & -> & ->)]]]; done.
Qed.

Lemma next_url_without_href active_pg :
  next_url_of active_pg = None ↔ link_without_href active_pg.
Proof.
  unfold next_url_of, link_without_href. split.
  - destruct active_pg as [active|]; [|discriminate].
    destruct (findNextSibling "li" active) as [li|] eqn:Hli; [|discriminate].
    destruct (find_in (is_tag "a") (el_node li)) as [a|] eqn:Ha; [|discriminate].
    destruct (tag_attrs (el_node a) !! "href") eqn:Hhref; [discriminate|].
    intros _. eauto 10.
  - by intros (active & li & a & -> & -> & -> & ->).
Qed.

Lemma crawl_nonempty w u pages : crawl w u pages → pages ≠ [].
Proof. by destruct 1. Qed.

Lemma final_soup_cons p q rest : final_soup (p :: q :: rest) = final_soup (q :: rest).
Proof. reflexivity. Qed.

(** One iteration on a page that answers: the accumulator grows by the
    page's rows and the loop goes on or stops on [page_next]. *)
Lemma scrape_loop_step fuel w session u page acc t :
  fetch_ok w u page →
  scrape_loop (S fuel) w session (Some u) acc t =
  match page_next page with
  | None =>
      (Raise (AttributeError "'NoneType' object has no attribute 'find'"),
       t ++ [EvHttp (GET u)])
  | Some next_url =>
      if bool_decide (next_url ≠ Some (PyStr ""))
      then scrape_loop fuel w session next_url (acc ++ page_rows page)
                       (t ++ [EvHttp (GET u)])
      else (Ret (acc ++ page_rows page, soup_of page), t ++ [EvHttp (GET u)])
  end.
Proof.
  intros (Hget & Hst & [tb Htb]).
  unfold page_next, page_marker, page_rows, page_trs. rewrite Htb.
  unfold page_table in Htb.
  simpl. unfold bind, request. rewrite Hget. simpl.
  rewrite bool_decide_eq_false_2 by (intros H; by apply H).
  rewrite Htb.
  destruct (find_in is_pagination (soup_of page)) as [pg|]; simpl; [|done].
  unfold table_rows.
  by destruct (bool_decide _).
Qed.

(** Enough fuel walks the whole listing: every page is fetched once, in
    order, and the loop returns the rows of all pages with the last soup. *)
Lemma scrape_loop_crawl w session u pages :
  crawl w u pages →
  ∀ fuel acc t, (length pages ≤ fuel)%nat →
    scrape_loop fuel w session (Some u) acc t =
    (Ret (acc ++ crawled_rows pages, final_soup pages), t ++ fetches pages).
Proof.
  induction 1 as [u page active_pg Hok Hmark Hnext
                 |u page next rest Hok Hnext Hne Hrest IH];
    intros [|fuel] acc t Hfuel; simpl in Hfuel; try lia.
  - rewrite (scrape_loop_step _ _ _ _ page) by done.
    apply next_url_exhausted in Hnext. unfold page_next. rewrite Hmark. simpl.
    rewrite Hnext.
    rewrite bool_decide_eq_false_2 by (intros H; by apply H).
    unfold crawled_rows, final_soup. simpl. by rewrite app_nil_r.
  - rewrite (scrape_loop_step _ _ _ _ page) by done. rewrite Hnext.
    rewrite bool_decide_eq_true_2 by congruence.
    rewrite IH by lia.
    unfold crawled_rows, fetches. simpl.
    rewrite <- !app_assoc. simpl.
    destruct rest as [|q rest']; [by apply crawl_nonempty in Hrest|].
    by rewrite final_soup_cons.
Qed.

(** Conversely, a loop that returns has walked such a listing. *)
Lemma scrape_loop_ret fuel w session :
  ∀ url acc t rd soup t',
    scrape_loop fuel w session url acc t = (Ret (rd, soup), t') →
    ∃ u pages,
      url = Some u ∧ crawl w u pages ∧ (length pages ≤ fuel)%nat
      ∧ rd = acc ++ crawled_rows pages
      ∧ soup = final_soup pages
      ∧ t' = t ++ fetches pages.
Proof.
  induction fuel as [|fuel IH]; intros url acc t rd soup t' Hrun; [discriminate|].
  destruct url as [u|]; [|discriminate].
  destruct (http w (GET u)) as [ex|page] eqn:Hget.
  { simpl in Hrun. unfold bind, request in Hrun. rewrite Hget in Hrun. discriminate. }
  destruct (decide (status_code page = 200)) as [Hst|Hst].
  2:{ simpl in Hrun. unfold bind, request in Hrun. rewrite Hget in Hrun.
      simpl in Hrun. rewrite bool_decide_eq_true_2 in Hrun by done. discriminate. }
  destruct (page_table page) as [tb|] eqn:Htb.
  2:{ simpl in Hrun. unfold bind, request in Hrun. rewrite Hget in Hrun.
      simpl in Hrun. rewrite bool_decide_eq_false_2 in Hrun by (intros H; by apply H).
      unfold page_table in Htb. rewrite Htb in Hrun. discriminate. }
  assert (Hok : fetch_ok w u page) by (repeat split; eauto).
  rewrite (scrape_loop_step _ _ _ _ page) in Hrun by done.
  destruct (page_next page) as [next_url|] eqn:Hnext; [|discriminate].
  destruct (bool_decide (next_url ≠ Some (PyStr ""))) eqn:Hcont.
  - apply bool_decide_eq_true in Hcont.
    apply IH in Hrun as (u' & pages & -> & Hcrawl & Hlen & -> & -> & ->).
    exists u, ((u, page) :: pages). split; [done|].
    split; [eapply crawl_next; eauto; congruence|].
    split; [simpl; lia|].
    unfold crawled_rows, fetches. simpl. rewrite <- !app_assoc. simpl.
    destruct pages as [|q rest']; [by apply crawl_nonempty in Hcrawl|].
    by rewrite final_soup_cons.
  - apply bool_decide_eq_false in Hcont.
    assert (next_url = Some (PyStr "")) as -> by (by destruct (decide (next_url = Some (PyStr ""))) ).
    injection Hrun as <- <- <-.
    exists u, [(u, page)]. split; [done|].
    unfold page_next in Hnext.
    destruct (page_marker page) as [active_pg|] eqn:Hmark; [|discriminate].
    injection Hnext as Hnext. apply next_url_exhausted in Hnext.
    split; [by eapply crawl_last|].
    split; [simpl; lia|].
    unfold crawled_rows, final_soup. simpl. by rewrite app_nil_r.
Qed.

(** ** Paginated scraper: the pandas steps *)

Example strip_cell : strip " 101 " = "101".
Proof. reflexivity. Qed.

Example scraping_three_pages :
  scraping 3 Fixture.world0 RequestsSession []
  = (Ret Fixture.open_items, fetches Fixture.listing).
Proof. evaluate. Qed.

Example scraping_out_of_fuel :
  (scraping 2 Fixture.world0 RequestsSession []).1 = Halt OutOfFuel.
Proof. evaluate. Qed.

Lemma table_width_ge (data : list (list string)) row :
  row ∈ data → (length row ≤ table_width data)%nat.
Proof.
  induction 1 as [row data|row r data Hin IH].
  - change (table_width (row :: data))
      with (Nat.max (length row) (table_width data)). lia.
  - change (table_width (r :: data))
      with (Nat.max (length r) (table_width data)). lia.
Qed.



Lemma pd_DataFrame_ret data cols frame :
  pd_DataFrame data cols = Ret frame →
  columns frame = cols
  ∧ rows frame = imap (λ i row, (i, pad_row (length cols) row)) data
  ∧ ∀ row, row ∈ data → (length row ≤ length cols)%nat.
Proof.
  unfold pd_DataFrame. destruct data as [|r data].
  - intros [= <-]. simpl. split; [done|]. split; [done|]. by intros row ?%elem_of_nil.
  - destruct (bool_decide _) eqn:Hk; [|discriminate].
    apply bool_decide_eq_true in Hk. intros [= <-]. simpl.
    split; [done|]. rewrite Hk. split; [done|].
    intros row Hrow. by apply table_width_ge.
Qed.



Lemma positions_from_spec label cols : ∀ s j,
  j ∈ positions_from s label cols ↔ ∃ i, j = (s + i)%nat ∧ cols !! i = Some label.
Proof.
  induction cols as [|c cols IH]; intros s j; simpl.
  - split; [by intros ?%elem_of_nil | by intros (i & _ & ?)].
  - case_bool_decide as Hc.
    + rewrite elem_of_cons, IH. split.
      * intros [->|(i & -> & Hi)]; [exists 0%nat|exists (S i)]; simpl;
          split; try lia; congruence.
      * intros ([|i] & -> & Hi); [left; lia|right; exists i; split; [lia|done]].
    + rewrite IH. split.
      * intros (i & -> & Hi). exists (S i). split; [lia|done].
      * intros ([|i] & -> & Hi); [simpl in Hi; congruence|].
        exists i. split; [lia|done].
Qed.

Lemma filter_open_ret frame open :
  filter_open frame = Ret open →
  ∃ j, positions_from 0 "Status" (columns frame) = [j]
       ∧ columns open = columns frame
       ∧ rows open = filter (is_open j) (rows frame).
Proof.
  unfold filter_open.
  destruct (positions_from 0 "Status" (columns frame)) as [|j [|j' l]];
    [discriminate| |by destruct (bool_decide _)].
  intros [= <-]. by exists j.
Qed.

(** With one Status column, the mask is the Status field of the record. *)
Lemma is_open_status cols j (row : nat * list (option string)) :
  positions_from 0 "Status" cols = [j] →
  is_open j row ↔ status_open (row.1, zip cols row.2).
Proof.
  intros Hpos. unfold is_open, status_open. simpl.
  assert (Hj : ∀ i, cols !! i = Some "Status" ↔ i = j).
  { intros i. transitivity (i ∈ positions_from 0 "Status" cols).
    - rewrite positions_from_spec. split; [by exists i|by intros (? & -> & ?)].
    - rewrite Hpos. apply list_elem_of_singleton. }
  rewrite list_elem_of_lookup. split.
  - intros Hcell. exists j. apply lookup_zip_with_Some.
    exists "Status", (Some "Open"). split; [done|]. split; [by apply Hj|done].
  - intros (i & (l & c & [= <- <-] & Hl & Hc)%lookup_zip_with_Some).
    apply Hj in Hl as ->. done.
Qed.

Lemma select_labels (cols : list string) :
  select ((λ c, bool_decide (c ≠ "Actions")) <$> cols) cols
  = filter (λ c, c ≠ "Actions") cols.
Proof.
  induction cols as [|c cols IH]; [done|].
  rewrite fmap_cons, filter_cons. cbn [select].
  case_bool_decide; case_decide; try done; by rewrite IH.
Qed.

Lemma select_zip (cols : list string) : ∀ cells : list (option string),
  zip (select ((λ c, bool_decide (c ≠ "Actions")) <$> cols) cols)
      (select ((λ c, bool_decide (c ≠ "Actions")) <$> cols) cells)
  = filter (λ p, p.1 ≠ "Actions") (zip cols cells).
Proof.
  induction cols as [|c cols IH]; intros [|x cells]; try done.
  - rewrite fmap_cons. cbn [select].
    by destruct (bool_decide _), (select _ _).
  - rewrite fmap_cons. cbn [select zip zip_with]. rewrite filter_cons.
    cbn [fst]. case_bool_decide; case_decide; try done;
      cbn [zip zip_with]; by rewrite <- IH.
Qed.

Lemma filter_fmap {A B} (f : A → B) (P : B → Prop) `{!∀ y, Decision (P y)}
    (l : list A) :
  filter P (f <$> l) = f <$> filter (λ x, P (f x)) l.
Proof.
  induction l as [|x l IH]; [done|].
  rewrite fmap_cons, !filter_cons.
  destruct (decide (P (f x))); rewrite IH; done.
Qed.


(** A returning [scraping], taken apart. *)
Lemma scraping_ret fuel w session t df t' :
  scraping fuel w session t = (Ret df, t') →
  ∃ pages frame open,
    scraped w t t' pages frame
    ∧ filter_open frame = Ret open
    ∧ df = drop_actions open.
Proof.
  unfold scraping, bind, lift, ret. intros Hrun.
  destruct (scrape_loop fuel w session _ [] t) as [[[rd soup]| |] t1] eqn:Hloop;
    try discriminate.
  apply scrape_loop_ret in Hloop as (u & pages & Hurl & Hcrawl & _ & -> & -> & ->).
  simpl in Hrun.
  destruct (pd_DataFrame _ _) as [frame| |] eqn:Hframe; try discriminate.
  destruct (filter_open frame) as [open| |] eqn:Hopen; try discriminate.
  injection Hrun as <- <-.
  exists pages, frame, open. split; [|done].
  exists u. done.
Qed.

Lemma records_drop_actions frame open :
  filter_open frame = Ret open →
  records (drop_actions open)
  = without_actions <$> filter status_open (records frame).
Proof.
  intros (j & Hpos & Hcols & Hrows)%filter_open_ret.
  unfold records, drop_actions. simpl. rewrite Hcols, Hrows.
  rewrite filter_fmap.
  rewrite (list_filter_iff
             (λ x : nat * list (option string),
                status_open (x.1, zip (columns frame) x.2)) (is_open j)).
  2:{ intros row. symmetry. by apply is_open_status. }
  clear Hrows.
  induction (filter (is_open j) (rows frame)) as [|r l IH]; [done|].
  rewrite !fmap_cons, IH. f_equal.
  unfold without_actions. simpl. by rewrite select_zip.
Qed.

















(** ** Paginated scraper: termination and the end of pagination *)

Lemma scraping_trace fuel w session t rd soup t1 :
  scrape_loop fuel w session (read_config_value "extract_url" (config w)) [] t
  = (Ret (rd, soup), t1) →
  ∃ r, scraping fuel w session t = (r, t1) ∧ r ≠ Halt OutOfFuel.
Proof.
  intros Hloop. unfold scraping, bind, lift, ret. rewrite Hloop. simpl.
  destruct (pd_DataFrame rd (header_cells soup)) as [frame|ex|h] eqn:Hframe.
  - unfold filter_open.
    destruct (positions_from 0 "Status" (columns frame)) as [|j [|j' l]];
      try destruct (bool_decide _);
      eexists; (split; [reflexivity|discriminate]).
  - eexists; (split; [reflexivity|discriminate]).
  - unfold pd_DataFrame in Hframe. destruct rd; [discriminate|].
    destruct (bool_decide _); discriminate.
Qed.

(** X1: The walk to the end of a listing: over one whose last lookup is
    [exhausted], the loop fetches every page once, in order, and returns;
    [scraping] stops with exactly those fetches, whatever pandas then says. *)
Theorem scraping_walks_listing (w : world) (session : Session) (u : pyval)
    (pages : list (pyval * response)) (fuel : nat) (t : trace) :
  read_config_value "extract_url" (config w) = Some u →
  crawl w u pages →
  (length pages ≤ fuel)%nat →
  scrape_loop fuel w session (Some u) [] t
  = (Ret (crawled_rows pages, final_soup pages), t ++ fetches pages)
  ∧ ∃ r, scraping fuel w session t = (r, t ++ fetches pages) ∧ r ≠ Halt OutOfFuel.
Proof.
  intros Hurl Hcrawl Hfuel.
  pose proof (scrape_loop_crawl w session u pages Hcrawl fuel [] t Hfuel) as Hloop.
  simpl in Hloop. split; [done|].
  eapply scraping_trace. rewrite Hurl. exact Hloop.
Qed.

Lemma fixture_listing_crawl :
  crawl Fixture.world0 (PyStr Fixture.url1) Fixture.listing.
Proof.
  eapply crawl_next; [repeat split; vm_compute; eauto|evaluate|done|].
  eapply crawl_next; [repeat split; vm_compute; eauto|evaluate|done|].
  eapply crawl_last; [repeat split; vm_compute; eauto|evaluate|].
  right; left. eexists. split; [reflexivity|]. evaluate.
Qed.

Lemma scraping_walks_listing_witness :
  scrape_loop 3 Fixture.world0 RequestsSession (Some (PyStr Fixture.url1)) [] []
  = (Ret (crawled_rows Fixture.listing, final_soup Fixture.listing),
     [] ++ fetches Fixture.listing)
  ∧ ∃ r, scraping 3 Fixture.world0 RequestsSession []
         = (r, [] ++ fetches Fixture.listing) ∧ r ≠ Halt OutOfFuel.
Proof.
  apply (scraping_walks_listing Fixture.world0 RequestsSession
           (PyStr Fixture.url1) Fixture.listing 3 []).
  - evaluate.
  - exact fixture_listing_crawl.
  - simpl; lia.
Defined.

(** C1, where the code departs from it: when the entry after the
    current-page marker holds a link without [href], the lookup yields
    Python's [None] instead of ['']; the loop goes on, and its next
    iteration raises the BusinessException of the URL guard. A page with no
    pagination list raises an AttributeError before the lookup is tried. *)
Theorem scrape_loop_link_without_href (fuel : nat) (w : world) (session : Session)
    (u : pyval) (page : response) (active_pg : option element)
    (acc : list (list string)) (t : trace) :
  fetch_ok w u page →
  page_marker page = Some active_pg →
  link_without_href active_pg →
  scrape_loop (S (S fuel)) w session (Some u) acc t
  = (Raise (BusinessException "Unable to identify the URL for extraction."),
     t ++ [EvHttp (GET u)]).
Proof.
  intros Hok Hmark Hlink%next_url_without_href.
  rewrite (scrape_loop_step _ _ _ _ page) by done.
  unfold page_next. rewrite Hmark. simpl. rewrite Hlink.
  by rewrite bool_decide_eq_true_2.
Qed.

Lemma scrape_loop_link_without_href_witness :
  scrape_loop 2 (Fixture.world_with_site (Fixture.site_with Fixture.page3_nohref 200))
              RequestsSession (Some (PyStr Fixture.url3)) [] []
  = (Raise (BusinessException "Unable to identify the URL for extraction."),
     [] ++ [EvHttp (GET (PyStr Fixture.url3))]).
Proof.
  eapply (scrape_loop_link_without_href 0
            (Fixture.world_with_site (Fixture.site_with Fixture.page3_nohref 200))
            RequestsSession (PyStr Fixture.url3)
            {| status_code := 200; soup_of := Fixture.page3_nohref |}).
  - repeat split; vm_compute; eauto.
  - evaluate.
  - do 3 eexists. repeat split; evaluate.
Defined.

(** The whole run on the three-page listing whose last page ends so: three
    fetches, then the BusinessException; nothing is returned. *)
Lemma scraping_link_without_href_raises :
  scraping 10 (Fixture.world_with_site (Fixture.site_with Fixture.page3_nohref 200))
           RequestsSession []
  = (Raise (BusinessException "Unable to identify the URL for extraction."),
     fetches Fixture.listing).
Proof. evaluate. Qed.

Lemma scraping_without_pagination_raises :
  scraping 10 (Fixture.world_with_site (Fixture.site_with Fixture.page3_unpaged 200))
           RequestsSession []
  = (Raise (AttributeError "'NoneType' object has no attribute 'find'"),
     fetches Fixture.listing).
Proof. evaluate. Qed.

(** ** Secret store client *)

Lemma c_byte_seven_bit b : seven_bit b → c_byte b = Z.of_N (Byte.to_N b).
Proof.
  unfold seven_bit, c_byte. intros H. cbv zeta.
  destruct (Z.ltb_spec (Z.of_N (Byte.to_N b)) 128); lia.
Qed.

Lemma c_byte_negative b : ¬ seven_bit b → c_byte b < 0.
Proof.
  unfold seven_bit, c_byte. intros H. cbv zeta.
  pose proof (Byte.to_N_bounded b).
  destruct (Z.ltb_spec (Z.of_N (Byte.to_N b)) 128); lia.
Qed.

(** A chunk of two items converts exactly when both bytes are below 0x80. *)
Lemma from_bytes_little_pair lo hi t :
  from_bytes_little [c_byte lo; c_byte hi] t
  = (if decide (seven_bit lo ∧ seven_bit hi)
     then Ret (Z.of_N (Byte.to_N lo) + 256 * Z.of_N (Byte.to_N hi))
     else Raise bad_bytes, t).
Proof.
  unfold from_bytes_little. cbn [forallb foldr].
  destruct (decide (seven_bit lo)) as [Hlo|Hlo].
  - rewrite (c_byte_seven_bit lo) by done.
    destruct (decide (seven_bit hi)) as [Hhi|Hhi].
    + rewrite (c_byte_seven_bit hi) by done.
      rewrite decide_True by done.
      unfold seven_bit in Hlo, Hhi.
      assert (Hl : (0 <=? Z.of_N (Byte.to_N lo)) && (Z.of_N (Byte.to_N lo) <? 256) = true)
        by (apply andb_true_intro; split; [apply Z.leb_le|apply Z.ltb_lt]; lia).
      assert (Hh : (0 <=? Z.of_N (Byte.to_N hi)) && (Z.of_N (Byte.to_N hi) <? 256) = true)
        by (apply andb_true_intro; split; [apply Z.leb_le|apply Z.ltb_lt]; lia).
      rewrite Hl, Hh. unfold ret. simpl. do 2 f_equal. lia.
    + rewrite decide_False by (by intros [_ ?]).
      apply c_byte_negative in Hhi.
      assert (Hh : (0 <=? c_byte hi) = false) by (apply Z.leb_gt; lia).
      rewrite Hh. simpl. by rewrite andb_false_r.
  - rewrite decide_False by (by intros [? _]).
    apply c_byte_negative in Hlo.
    assert (Hl : (0 <=? c_byte lo) = false) by (apply Z.leb_gt; lia).
    by rewrite Hl.
Qed.

Lemma length_bytes_read contents :
  length (bytes_read contents)
  = (2 * Nat.div2 (S (CredentialBlobSize contents)))%nat.
Proof.
  unfold bytes_read, CredentialBlobSize. rewrite length_app.
  pose proof (Nat.div2_odd (S (length (CredentialBlob contents)))) as Hdiv.
  rewrite Nat.odd_succ in Hdiv.
  rewrite <- Nat.negb_odd in Hdiv.
  destruct (Nat.odd (length (CredentialBlob contents))); simpl in *; lia.
Qed.

(** Within the bytes read, indexing the pointer gives the byte in place. *)
Lemma lookup_bytes_read contents i :
  (i < length (bytes_read contents))%nat →
  bytes_read contents !! i
  = Some (nth i (CredentialBlob contents) (after_blob contents)).
Proof.
  unfold bytes_read, CredentialBlobSize. intros Hi.
  destruct (decide (i < length (CredentialBlob contents))%nat) as [Hlt|Hge].
  - rewrite lookup_app_l by done.
    destruct (CredentialBlob contents !! i) as [b|] eqn:Hb.
    + by rewrite (nth_lookup_Some _ _ _ _ Hb).
    + apply lookup_ge_None in Hb. lia.
  - rewrite nth_overflow by lia.
    rewrite lookup_app_r by lia.
    rewrite length_app in Hi.
    destruct (Nat.odd (length (CredentialBlob contents))); simpl in Hi; [|lia].
    by replace (i - length (CredentialBlob contents))%nat with 0%nat by lia.
Qed.

(** The comprehension never touches the trace: it returns the code points,
    or raises on the first chunk with a byte that reads negative. *)
Lemma password_from_spec contents : ∀ count pos t,
  (pos + 2 * count = length (bytes_read contents))%nat →
  password_from contents pos count t
  = (if decide (Forall seven_bit (drop pos (bytes_read contents)))
     then Ret (units (drop pos (bytes_read contents)))
     else Raise bad_bytes, t).
Proof.
  induction count as [|count IH]; intros pos t Hlen.
  - rewrite drop_ge by lia. by rewrite decide_True by constructor.
  - cbn [password_from]. unfold bind, cred_blob_slice, cred_blob_at.
    rewrite (drop_S _ (nth pos (CredentialBlob contents) (after_blob contents)) pos)
      by (apply lookup_bytes_read; lia).
    rewrite (drop_S _ (nth (S pos) (CredentialBlob contents) (after_blob contents))
                    (S pos))
      by (apply lookup_bytes_read; lia).
    rewrite from_bytes_little_pair.
    set (lo := nth pos _ _). set (hi := nth (S pos) _ _).
    destruct (decide (seven_bit lo ∧ seven_bit hi)) as [[Hlo Hhi]|Hbad].
    + rewrite (IH (2 + pos)%nat) by lia. cbn [Nat.add].
      destruct (decide (Forall seven_bit (drop (S (S pos)) (bytes_read contents))))
        as [Hrest|Hrest].
      * rewrite decide_True by (by repeat (apply Forall_cons; split)). done.
      * rewrite decide_False; [done|].
        intros [_ [_ H]%Forall_cons]%Forall_cons. by apply Hrest.
    + rewrite decide_False; [done|].
      intros [? [? _]%Forall_cons]%Forall_cons. by apply Hbad.
Qed.

Lemma password_as_list_spec contents t :
  password_as_list contents t
  = (if decide (Forall seven_bit (bytes_read contents))
     then Ret (code_points contents)
     else Raise bad_bytes, t).
Proof.
  unfold password_as_list, code_points.
  rewrite (password_from_spec contents _ 0%nat)
    by (rewrite length_bytes_read; lia).
  by rewrite drop_0.
Qed.

(** Whatever the retrieval ends with, a buffer that was read is freed. *)
Lemma get_generic_credential_calls w name t r t' :
  get_generic_credential w name t = (r, t') →
  ∃ evs, t' = t ++ evs ∧ credential_calls evs.
Proof.
  unfold get_generic_credential, credential_calls.
  destruct name as [[n|z|z|ty]|]; intros Hrun.
  - unfold bind, CredReadW, emit, ret in Hrun.
    destruct (cred_store w !! n) as [contents|] eqn:Hc.
    + unfold try_finally, bind in Hrun.
      rewrite password_as_list_spec in Hrun.
      destruct (decide _); simpl in Hrun; injection Hrun as _ <-;
        rewrite <- app_assoc;
        eexists; (split; [reflexivity|]); right; right; eauto.
    + injection Hrun as _ <-. eexists; (split; [reflexivity|]). right; left; eauto.
  - injection Hrun as _ <-. exists []. split; [by rewrite app_nil_r|by left].
  - injection Hrun as _ <-. exists []. split; [by rewrite app_nil_r|by left].
  - injection Hrun as _ <-. exists []. split; [by rewrite app_nil_r|by left].
  - unfold bind, CredReadW, emit, ret in Hrun. injection Hrun as _ <-.
    eexists; (split; [reflexivity|]). right; left; eauto.
Qed.

Lemma get_generic_credential_found w name contents t :
  cred_store w !! name = Some contents →
  Forall seven_bit (bytes_read contents) →
  get_generic_credential w (Some (PyStr name)) t
  = (Ret (Some {| username := UserName contents;
                  password := code_points contents |}),
     t ++ [EvCredRead (Some name) true; EvCredFree]).
Proof.
  intros Hc Hbytes.
  unfold get_generic_credential, bind, CredReadW, emit, ret. rewrite Hc.
  unfold try_finally, bind.
  rewrite password_as_list_spec, decide_True by done.
  by rewrite <- app_assoc.
Qed.

Lemma get_generic_credential_bad_blob w name contents t :
  cred_store w !! name = Some contents →
  ¬ Forall seven_bit (bytes_read contents) →
  get_generic_credential w (Some (PyStr name)) t
  = (Raise bad_bytes, t ++ [EvCredRead (Some name) true; EvCredFree]).
Proof.
  intros Hc Hbytes.
  unfold get_generic_credential, bind, CredReadW, emit, ret. rewrite Hc.
  unfold try_finally, bind.
  rewrite password_as_list_spec, decide_False by done.
  by rewrite <- app_assoc.
Qed.

Lemma get_generic_credential_absent w name t :
  cred_store w !! name = None →
  get_generic_credential w (Some (PyStr name)) t
  = (Ret None, t ++ [EvCredRead (Some name) false]).
Proof.
  intros Hc. unfold get_generic_credential, bind, CredReadW, emit, ret.
  by rewrite Hc.
Qed.

Example get_generic_credential_returns :
  get_generic_credential Fixture.world0 (Some (PyStr "ACME")) []
  = (Ret (Some {| username := Some "bot@example.com"; password := [112; 119] |}),
     [EvCredRead (Some "ACME") true; EvCredFree]).
Proof. evaluate. Qed.

Example get_generic_credential_frees_on_error :
  get_generic_credential Fixture.world_signed_blob (Some (PyStr "ACME")) []
  = (Raise bad_bytes, [EvCredRead (Some "ACME") true; EvCredFree]).
Proof. evaluate. Qed.

(** ** Authenticator *)

(** C7, where the code departs from it: for a credential name with no entry
    the store client returns [None], as the claim says; [login] then unpacks
    that [None] into two names and fails with a TypeError, which is not a
    BusinessException, before its own test for a missing user name. *)
Theorem login_absent_credential_raises_TypeError (w : world) (url : pyval)
    (name : string) (t : trace) :
  read_config_value "login_url" (config w) = Some url →
  read_config_value "ACME_credential_name" (config w) = Some (PyStr name) →
  cred_store w !! name = None →
  get_generic_credential w (Some (PyStr name)) t
  = (Ret None, t ++ [EvCredRead (Some name) false])
  ∧ login w t = (Raise cannot_unpack, t ++ [EvCredRead (Some name) false])
  ∧ is_business cannot_unpack = false.
Proof.
  intros Hurl Hname Habsent.
  split; [by apply get_generic_credential_absent|].
  split; [|reflexivity].
  unfold login. rewrite Hurl, Hname. unfold bind.
  by rewrite get_generic_credential_absent.
Qed.

Lemma login_absent_credential_raises_TypeError_witness :
  get_generic_credential Fixture.world_empty_vault (Some (PyStr "ACME")) []
  = (Ret None, [] ++ [EvCredRead (Some "ACME") false])
  ∧ login Fixture.world_empty_vault []
    = (Raise cannot_unpack, [] ++ [EvCredRead (Some "ACME") false])
  ∧ is_business cannot_unpack = false.
Proof.
  apply (login_absent_credential_raises_TypeError Fixture.world_empty_vault
           (PyStr Fixture.login_url) "ACME" []).
  - evaluate.
  - evaluate.
  - evaluate.
Defined.

(** C6 as the code has it: once the credentials are there (the entry is
    found, names a user, and every byte read from it is below 0x80) and the
    form gives its token, the POST decides; [login] returns the session
    exactly when the status is 200, and any other status, 2xx or not, raises
    a plain [Exception], which the orchestrator does not count as a
    BusinessException. *)
Theorem login_succeeds_iff_status_200 (w : world) (url : pyval) (name : string)
    (contents : WinCredential) (user : string) (form : response)
    (input : element) (token : attr_value) (answer : response) (t : trace) :
  read_config_value "login_url" (config w) = Some url →
  read_config_value "ACME_credential_name" (config w) = Some (PyStr name) →
  cred_store w !! name = Some contents →
  UserName contents = Some user →
  Forall seven_bit (bytes_read contents) →
  http w (GET url) = inr form →
  find_in (λ n, is_tag "input" n && has_attr "name" "_token" n) (soup_of form)
  = Some input →
  tag_attrs (el_node input) !! "value" = Some token →
  http w (POST url (py_of_attr token) user (code_points contents))
  = inr answer →
  login w t
  = (if bool_decide (status_code answer = 200) then Ret RequestsSession
     else Raise login_rejected,
     t ++ [EvCredRead (Some name) true; EvCredFree; EvHttp (GET url);
           EvHttp (POST url (py_of_attr token) user
                        (code_points contents))])
  ∧ is_business login_rejected = false.
Proof.
  intros Hurl Hname Hcred Huser Hbytes Hget Hinput Hvalue Hpost.
  split; [|reflexivity].
  unfold login. rewrite Hurl, Hname. unfold bind.
  rewrite (get_generic_credential_found _ _ contents) by done.
  simpl. rewrite Huser. unfold request. rewrite Hget. simpl.
  rewrite Hinput, Hvalue. unfold bind. rewrite Hpost. simpl.
  rewrite <- !app_assoc. simpl.
  destruct (decide (status_code answer = 200)) as [H200|H200].
  - by rewrite bool_decide_eq_false_2, bool_decide_eq_true_2 by (done || by intros []).
  - by rewrite bool_decide_eq_true_2, bool_decide_eq_false_2.
Qed.

Lemma login_succeeds_iff_status_200_witness :
  login Fixture.world0 []
  = (Ret RequestsSession,
     [EvCredRead (Some "ACME") true; EvCredFree;
      EvHttp (GET (PyStr Fixture.login_url));
      EvHttp (POST (PyStr Fixture.login_url) (PyStr "abc123") "bot@example.com"
                   [112; 119])])
  ∧ is_business login_rejected = false.
Proof.
  apply (login_succeeds_iff_status_200 Fixture.world0 (PyStr Fixture.login_url)
           "ACME"
           (Fixture.entry (Some "bot@example.com") Fixture.blob_pw)
           "bot@example.com"
           {| status_code := 200; soup_of := Fixture.login_page |}
           (Element (Fixture.elt "input" [("name", AttrStr "_token");
                                          ("value", AttrStr "abc123")] [])
                    [Fixture.elt "input" [("name", AttrStr "email")] [];
                     Fixture.elt "input" [("name", AttrStr "password")] []])
           (AttrStr "abc123")
           {| status_code := 200; soup_of := Fixture.login_page |} []).
  - evaluate.
  - evaluate.
  - evaluate.
  - reflexivity.
  - decided.
  - evaluate.
  - evaluate.
  - evaluate.
  - evaluate.
Defined.

(** C6 fails as stated: the site answers the credential POST with 204, a
    200-class status; [login] raises, the exception is not a
    BusinessException, and [main] mails the technical users about it. *)
Lemma login_rejects_status_204 :
  200 ≤ 204 < 300
  ∧ (login (Fixture.world_with_site (Fixture.site 204)) []).1 = Raise login_rejected
  ∧ is_business login_rejected = false
  ∧ msg_to <$> mails (main 10 (Fixture.world_with_site (Fixture.site 204)) []).2
    = [PyStr "business@example.com"; PyStr "technical@example.com"].
Proof.
  split; [lia|]. split; [evaluate|].
  split; evaluate.
Qed.

(** ** Persistence sink *)

Lemma getattr_row_ok cols cells label t :
  label ∈ cols →
  getattr_row cols cells label t = (Ret (field_param cols cells label), t).
Proof.
  intros [i Hi]%list_elem_of_lookup.
  assert (Hpos : i ∈ positions_from 0 label cols)
    by (apply positions_from_spec; by exists i).
  unfold getattr_row, field_param.
  destruct (positions_from 0 label cols) as [|j [|j' l]]; [|done|done].
  by apply elem_of_nil in Hpos.
Qed.

Lemma insert_rows_ok w cols rws : ∀ t,
  (∀ op, db w op = None) →
  (∀ label, label ∈ item_labels → label ∈ cols) →
  insert_rows w cols rws t = (Ret tt, t ++ (insert_event cols <$> rws)).
Proof.
  intros t Hdb Hlabels. revert t.
  induction rws as [|row rws IH]; intros t.
  - simpl. unfold ret. by rewrite app_nil_r.
  - simpl. unfold bind.
    rewrite !getattr_row_ok by (apply Hlabels; set_solver).
    unfold db_call. rewrite Hdb. unfold emit. rewrite IH.
    by rewrite <- app_assoc.
Qed.

(** Each label is read before the call; a call that is made is an INSERT. *)
Lemma insert_rows_ret w cols rws : ∀ t t',
  insert_rows w cols rws t = (Ret tt, t') →
  ∃ evs, t' = t ++ evs
         ∧ Forall is_execute (db_ops evs)
         ∧ length (db_ops evs) = length rws.
Proof.
  induction rws as [|row rws IH]; intros t t' Hrun.
  - injection Hrun as <-. exists []. by rewrite app_nil_r.
  - simpl in Hrun. unfold bind in Hrun.
    repeat (match type of Hrun with
            | context [getattr_row ?c ?r ?l ?t0] =>
                let E := fresh "E" in
                destruct (getattr_row c r l t0) as [[?|?|?] ?] eqn:E;
                unfold getattr_row in E;
                destruct (positions_from 0 l c) as [|? [|? ?]];
                try discriminate; injection E as <- <-
            end).
    all: unfold db_call in Hrun;
      destruct (db w _) as [ex|] eqn:Hdb; [discriminate|];
      unfold emit in Hrun;
      apply IH in Hrun as (evs & -> & Hex & Hlen);
      eexists (_ :: evs); rewrite <- app_assoc;
      (split; [reflexivity|]);
      simpl; (split; [constructor; [by eexists|done]|by rewrite Hlen]).
Qed.

Lemma db_ops_app t1 t2 : db_ops (t1 ++ t2) = db_ops t1 ++ db_ops t2.
Proof. unfold db_ops. apply omap_app. Qed.

Lemma credential_calls_no_db evs : credential_calls evs → db_ops evs = [].
Proof. by intros [->|[[name ->]|[name ->]]]. Qed.

(** C5 as the code has it: an empty collection raises the no-items
    BusinessException before any call is made; for a collection with rows,
    once the credential entry has been read (it is found and every byte
    read from it is below 0x80), another BusinessException is raised,
    still before any connection, when the server name or the entry's user
    name is not resolved; and when both resolve, the record labels are
    there and the database accepts every call, one connection is opened,
    every record is inserted in order, row by row, and one commit follows. *)
Theorem insert_into_db_outcomes (w : world) (results : DataFrame) (t : trace) :
  (rows results = [] → insert_into_db w results t = (Raise no_items, t))
  ∧ (rows results ≠ [] →
     ∀ name contents,
       read_config_value "DB_credential_name" (config w) = Some (PyStr name) →
       cred_store w !! name = Some contents →
       Forall seven_bit (bytes_read contents) →
       read_config_value "DB_server_name" (config w) = None
       ∨ UserName contents = None →
       insert_into_db w results t
       = (Raise no_db_parameters, t ++ [EvCredRead (Some name) true; EvCredFree]))
  ∧ (rows results ≠ [] →
     ∀ name contents user server,
       read_config_value "DB_credential_name" (config w) = Some (PyStr name) →
       cred_store w !! name = Some contents →
       Forall seven_bit (bytes_read contents) →
       UserName contents = Some user →
       read_config_value "DB_server_name" (config w) = Some (PyStr server) →
       (∀ op, db w op = None) →
       (∀ label, label ∈ item_labels → label ∈ columns results) →
       insert_into_db w results t
       = (Ret tt,
          t ++ [EvCredRead (Some name) true; EvCredFree;
                EvDb (DbConnect server "Automations" user
                                (code_points contents));
                EvDb DbCursor]
            ++ (insert_event (columns results) <$> rows results)
            ++ [EvDb DbCommit; EvDb DbCursorClose])).
Proof.
  split; [|split].
  - intros Hempty. unfold insert_into_db. by rewrite Hempty.
  - intros Hrows name contents Hname Hcred Hbytes Hmissing.
    unfold insert_into_db.
    destruct (rows results) as [|row rws] eqn:Hr; [done|]. simpl.
    rewrite Hname. unfold bind.
    rewrite (get_generic_credential_found _ _ contents) by done. simpl.
    destruct Hmissing as [-> | ->]; [done|].
    by destruct (read_config_value "DB_server_name" (config w)).
  - intros Hrows name contents user server Hname Hcred Hbytes Huser Hserver
      Hdb Hlabels.
    assert (Hpos : (0 <? length (rows results))%nat = true)
      by (destruct (rows results); [done|reflexivity]).
    unfold insert_into_db. rewrite Hpos, Hname, Hserver. unfold bind.
    rewrite (get_generic_credential_found _ _ contents) by done. simpl.
    rewrite Huser. unfold db_call at 1 2. rewrite !Hdb. unfold emit.
    rewrite insert_rows_ok by done.
    unfold db_call. rewrite !Hdb. unfold emit.
    by rewrite <- !app_assoc.
Qed.

Lemma insert_into_db_outcomes_witness :
  insert_into_db Fixture.world0 Fixture.open_items []
  = (Ret tt,
     [] ++ [EvCredRead (Some "SQLServer") true; EvCredFree;
            EvDb (DbConnect "localhost" "Automations" "sa" [112; 119]);
            EvDb DbCursor]
        ++ (insert_event (columns Fixture.open_items) <$> rows Fixture.open_items)
        ++ [EvDb DbCommit; EvDb DbCursorClose]).
Proof.
  apply (proj2 (proj2 (insert_into_db_outcomes Fixture.world0 Fixture.open_items []))
           ltac:(done) "SQLServer"
           (Fixture.entry (Some "sa") Fixture.blob_pw)
           "sa" "localhost").
  - evaluate.
  - evaluate.
  - decided.
  - reflexivity.
  - evaluate.
  - done.
  - intros label Hlabel. unfold item_labels in Hlabel. simpl. set_solver.
Defined.

(** C5 fails as stated: with rows to insert but no [DB_server_name] row in
    the configuration, [insert_into_db] raises a BusinessException. *)
Lemma insert_into_db_business_error_with_rows :
  rows Fixture.open_items ≠ []
  ∧ insert_into_db (Fixture.world_without "DB_server_name") Fixture.open_items []
    = (Raise no_db_parameters, [EvCredRead (Some "SQLServer") true; EvCredFree])
  ∧ is_business no_db_parameters = true.
Proof. split; [done|]. split; evaluate. Qed.

(** A run of [insert_into_db] that returns has made these ODBC calls. *)
Lemma insert_into_db_ret w results t t' :
  insert_into_db w results t = (Ret tt, t') →
  ∃ connect execs,
    db_ops t' = db_ops t ++ [connect; DbCursor] ++ execs ++ [DbCommit; DbCursorClose]
    ∧ is_connect connect
    ∧ Forall is_execute execs
    ∧ length execs = length (rows results).
Proof.
  unfold insert_into_db. destruct (0 <? length (rows results))%nat; [|discriminate].
  unfold bind.
  destruct (get_generic_credential w _ t) as [[cred|ex|h] t1] eqn:Hg;
    try discriminate.
  apply get_generic_credential_calls in Hg as (evs & -> & Hcalls).
  destruct cred as [c|]; [|discriminate]. simpl.
  destruct (read_config_value "DB_server_name" (config w)) as [server|];
    [|discriminate].
  destruct (username c) as [user|]; [|discriminate].
  destruct server as [server|z|z|ty]; try discriminate. simpl.
  unfold db_call at 1.
  destruct (db w (DbConnect _ _ _ _)) as [ex|]; [discriminate|].
  unfold emit at 1. cbv beta iota.
  unfold db_call at 1.
  destruct (db w DbCursor) as [ex|]; [discriminate|].
  unfold emit at 1. cbv beta iota.
  destruct (insert_rows w _ _ _) as [[[]|ex|h] t3] eqn:Hins; try discriminate.
  apply insert_rows_ret in Hins as (ins & -> & Hex & Hlen).
  unfold db_call at 1.
  destruct (db w DbCommit) as [ex|]; [discriminate|].
  unfold emit at 1. cbv beta iota.
  unfold db_call.
  destruct (db w DbCursorClose) as [ex|]; [discriminate|].
  unfold emit. intros [= <-].
  eexists _, (db_ops ins).
  rewrite !db_ops_app, (credential_calls_no_db evs) by done.
  rewrite app_nil_r, <- !app_assoc. simpl.
  split; [reflexivity|]. split; [by do 4 eexists|done].
Qed.

(** C9 as the code has it: whichever way a retrieval ends, with a
    credential, with [None] or with an exception, a credential buffer that
    was read is freed by the next call; and a run of [insert_into_db] that
    returns has opened one connection and one cursor, and closed the cursor
    after the one commit. *)
Theorem resources_released_on_return (w : world) :
  (∀ name t r t',
     get_generic_credential w name t = (r, t') →
     ∃ evs, t' = t ++ evs ∧ credential_calls evs)
  ∧ (∀ results t t',
       insert_into_db w results t = (Ret tt, t') →
       ∃ connect execs,
         db_ops t' = db_ops t ++ [connect; DbCursor] ++ execs
                     ++ [DbCommit; DbCursorClose]
         ∧ is_connect connect
         ∧ Forall is_execute execs
         ∧ length execs = length (rows results)).
Proof.
  split.
  - intros name t r t'. apply get_generic_credential_calls.
  - intros results t t'. apply insert_into_db_ret.
Qed.

Lemma resources_released_on_return_witness :
  (∃ evs, (get_generic_credential Fixture.world0 (Some (PyStr "ACME")) []).2
          = [] ++ evs ∧ credential_calls evs)
  ∧ (∃ connect execs,
       db_ops (insert_into_db Fixture.world0 Fixture.open_items []).2
       = db_ops [] ++ [connect; DbCursor] ++ execs ++ [DbCommit; DbCursorClose]
       ∧ is_connect connect
       ∧ Forall is_execute execs
       ∧ length execs = length (rows Fixture.open_items)).
Proof.
  split.
  - eapply (proj1 (resources_released_on_return Fixture.world0)).
    apply surjective_pairing.
  - eapply (proj2 (resources_released_on_return Fixture.world0)).
    evaluate.
Defined.

(** C9 fails as stated: when the database refuses an INSERT, the run ends
    with that exception after opening a connection and a cursor, and makes
    no further call: the cursor is not closed. *)
Lemma insert_into_db_leaves_cursor_open :
  (insert_into_db Fixture.world_db_refuses Fixture.open_items []).1
  = Raise (Exn "pyodbc.IntegrityError" "Violation of PRIMARY KEY constraint")
  ∧ db_ops (insert_into_db Fixture.world_db_refuses Fixture.open_items []).2
    = [DbConnect "localhost" "Automations" "sa" [112; 119]; DbCursor]
  ∧ DbCursorClose ∉ db_ops (insert_into_db Fixture.world_db_refuses
                               Fixture.open_items []).2.
Proof.
  split; [evaluate|].
  assert (H : db_ops (insert_into_db Fixture.world_db_refuses Fixture.open_items []).2
              = [DbConnect "localhost" "Automations" "sa" [112; 119]; DbCursor])
    by (evaluate).
  split; [exact H|]. rewrite H.
  intros Hin. repeat (apply elem_of_cons in Hin as [Hin|Hin]; [discriminate|]).
  by apply elem_of_nil in Hin.
Qed.

(** ** Notifier and orchestrator *)

Lemma mails_app t1 t2 : mails (t1 ++ t2) = mails t1 ++ mails t2.
Proof. unfold mails. apply omap_app. Qed.

Lemma credential_calls_no_mail evs : credential_calls evs → mails evs = [].
Proof. by intros [->|[[name ->]|[name ->]]]. Qed.

(** A [send_email] that returns has handed one message to [sendmail],
    addressed to the recipients configured for the audience. *)
Lemma send_email_ret w user_type subject content attachment_name file t t' :
  send_email w user_type subject content attachment_name file t = (Ret tt, t') →
  ∃ user TO,
    read_config_value (recipients_key user_type) (config w) = Some TO
    ∧ mails t'
      = mails t ++ [{| msg_subject := subject;
                       msg_from := user;
                       msg_to := TO;
                       msg_attachment := (λ f, (attachment_name, f)) <$> file;
                       msg_html := content |}].
Proof.
  unfold send_email, recipients_key, bind.
  destruct (get_generic_credential w _ t) as [[cred|ex|h] t1] eqn:Hg;
    try discriminate.
  apply get_generic_credential_calls in Hg as (evs & -> & Hcalls).
  destruct cred as [c|]; [|discriminate]. simpl.
  destruct (read_config_value "email_server_name" (config w)) as [SERVER|];
    [|discriminate].
  destruct (read_config_value "email_port" (config w)) as [PORT|]; [|discriminate].
  destruct (username c) as [user|]; [|discriminate].
  destruct (if bool_decide (user_type = "business")
            then read_config_value "business_users" (config w)
            else read_config_value "technical_users" (config w)) as [TO|] eqn:HTO;
    [|discriminate].
  unfold smtp_call, emit, raise, as_string, ret. cbn [msg_to].
  destruct TO as [to|z|z|ty];
    repeat (destruct (smtp w _) as [ex|]; [discriminate|]; cbv beta iota zeta);
    try discriminate.
  intros [= <-]. exists user, (PyStr to). split.
  - revert HTO. by destruct (bool_decide (user_type = "business")).
  - rewrite !mails_app, (credential_calls_no_mail evs) by done.
    simpl. by rewrite !app_nil_r.
Qed.

Lemma prefix_app s rest : String.prefix s (s +:+ rest) = true.
Proof.
  induction s as [|c s IH]; simpl; [by destruct rest|].
  destruct (ascii_dec c c); [done|congruence].
Qed.

Lemma str_in_prefix s h : String.prefix s h = true → str_in s h = true.
Proof. intros H. destruct h; cbn [str_in]; by rewrite H. Qed.

Lemma str_in_app before s rest : str_in s (before +:+ s +:+ rest) = true.
Proof.
  induction before as [|c before IH].
  - change ("" +:+ s +:+ rest) with (s +:+ rest).
    apply str_in_prefix, prefix_app.
  - change (String c before +:+ s +:+ rest) with (String c (before +:+ s +:+ rest)).
    cbn [str_in]. rewrite IH. by destruct (String.prefix _ _).
Qed.

Lemma failure_content_has_message ex : str_in (exn_str ex) (failure_content ex) = true.
Proof.
  exact (str_in_app
           ("<p>Dear All,</p>" +:+ "<p>Please be noted that bot execution failed "
            +:+ "due to below error.</p><p>Error Message: ")
           (exn_str ex) "</p><p>Thanks and Regards,<br>BOT</p>").
Qed.

(** C8 as the code has it: when the [try] block fails with [ex] and the
    notification itself goes out, [main] returns, and after what was mailed
    before the failure it has mailed exactly one more message: the failure
    notification, addressed to the recipients configured for business users
    when [ex] is a BusinessException and for technical users otherwise,
    with [str(ex)] in its body. *)
Theorem main_failure_notified_once (fuel : nat) (w : world) (t : trace)
    (ex : exn) (t1 t2 : trace) :
  main_body fuel w t = (Raise ex, t1) →
  main_handler w ex t1 = (Ret tt, t2) →
  main fuel w t = (Ret tt, t2)
  ∧ (∃ user TO,
       read_config_value (recipients_key (audience ex)) (config w) = Some TO
       ∧ mails t2 = mails t1 ++ [failure_mail ex user TO])
  ∧ str_in (exn_str ex) (failure_content ex) = true.
Proof.
  intros Hbody Hhandler.
  split; [by unfold main, try_except; rewrite Hbody|].
  split; [|apply failure_content_has_message].
  unfold main_handler in Hhandler. unfold audience, failure_mail.
  destruct (is_business ex);
    apply send_email_ret in Hhandler as (user & TO & HTO & Hmails); eauto.
Qed.

(** The run without a [login_url] row: the initialization mail, then one
    failure mail, both to the business recipients. *)
Lemma main_failure_notified_once_witness :
  main 10 (Fixture.world_without "login_url") []
  = (Ret tt, (main 10 (Fixture.world_without "login_url") []).2)
  ∧ (∃ user TO,
       read_config_value (recipients_key (audience no_login_url))
                         (config (Fixture.world_without "login_url")) = Some TO
       ∧ mails (main 10 (Fixture.world_without "login_url") []).2
         = mails (main_body 10 (Fixture.world_without "login_url") []).2
           ++ [failure_mail no_login_url user TO])
  ∧ str_in (exn_str no_login_url) (failure_content no_login_url) = true.
Proof.
  apply (main_failure_notified_once 10 (Fixture.world_without "login_url") []
           no_login_url
           (main_body 10 (Fixture.world_without "login_url") []).2
           (main 10 (Fixture.world_without "login_url") []).2).
  - evaluate.
  - evaluate.
Defined.

Lemma main_without_login_url_mails :
  msg_to <$> mails (main 10 (Fixture.world_without "login_url") []).2
  = [PyStr "business@example.com"; PyStr "business@example.com"]
  ∧ msg_subject <$> mails (main 10 (Fixture.world_without "login_url") []).2
    = [init_subject; business_subject].
Proof. split; evaluate. Qed.

(** C8 fails as stated: without an [email_server_name] row the first
    notification fails, the handler's notification fails the same way, and
    the exception leaves [main] with no mail sent at all; and the run
    without a [login_url] row mails the business recipients twice. *)
Lemma main_failure_without_any_mail :
  (main 10 (Fixture.world_without "email_server_name") []).1
  = Raise no_email_parameters
  ∧ mails (main 10 (Fixture.world_without "email_server_name") []).2 = []
  ∧ length (mails (main 10 (Fixture.world_without "login_url") []).2) = 2%nat.
Proof. repeat split; evaluate. Qed.

(** The run on the fixture: two notices to the business users, the second
    with the extracted items attached. *)
Example main_on_fixture :
  (main 3 Fixture.world0 []).1 = Ret tt
  ∧ msg_to <$> mails (main 3 Fixture.world0 []).2
    = [PyStr "business@example.com"; PyStr "business@example.com"]
  ∧ msg_attachment <$> mails (main 3 Fixture.world0 []).2
    = [None; Some (Some "work_items.csv", Fixture.open_items)].
Proof. repeat split; evaluate. Qed.

(** * Further properties of the code *)

(** ** Which collaborators each component calls *)

Lemma credential_calls_cred evs : credential_calls evs → Forall is_cred_event evs.
Proof.
  intros [->|[[name ->]|[name ->]]]; repeat constructor.
Qed.

Lemma scrape_loop_gets fuel w session : ∀ url acc t r t',
  scrape_loop fuel w session url acc t = (r, t') →
  ∃ evs, t' = t ++ evs ∧ Forall is_get_event evs.
Proof.
  induction fuel as [|fuel IH]; intros url acc t r t' Hrun.
  { injection Hrun as _ <-. exists []. by rewrite app_nil_r. }
  destruct url as [u|].
  2:{ injection Hrun as _ <-. exists []. by rewrite app_nil_r. }
  simpl in Hrun. unfold bind, request in Hrun.
  destruct (http w (GET u)) as [ex|page] eqn:Hget.
  { injection Hrun as _ <-. exists []. by rewrite app_nil_r. }
  simpl in Hrun.
  destruct (bool_decide (status_code page ≠ 200)).
  { injection Hrun as _ <-. exists [EvHttp (GET u)]. by repeat constructor. }
  destruct (find_in (is_tag "table") (soup_of page)) as [tb|].
  2:{ injection Hrun as _ <-. exists [EvHttp (GET u)]. by repeat constructor. }
  destruct (find_in is_pagination (soup_of page)) as [pg|].
  2:{ injection Hrun as _ <-. exists [EvHttp (GET u)]. by repeat constructor. }
  destruct (bool_decide _).
  - apply IH in Hrun as (evs & -> & Hevs).
    exists (EvHttp (GET u) :: evs). rewrite <- app_assoc.
    split; [done|]. by constructor.
  - injection Hrun as _ <-. exists [EvHttp (GET u)]. by repeat constructor.
Qed.

Lemma scraping_gets fuel w session t r t' :
  scraping fuel w session t = (r, t') →
  ∃ evs, t' = t ++ evs ∧ Forall is_get_event evs.
Proof.
  unfold scraping, bind, lift, ret. intros Hrun.
  destruct (scrape_loop fuel w session _ [] t) as [[acc|ex|h] t1] eqn:Hloop;
    apply scrape_loop_gets in Hloop as (evs & -> & Hevs).
  - destruct (pd_DataFrame _ _) as [frame|ex|h].
    + destruct (filter_open frame); injection Hrun as _ <-; eauto.
    + injection Hrun as _ <-; eauto.
    + injection Hrun as _ <-; eauto.
  - injection Hrun as _ <-; eauto.
  - injection Hrun as _ <-; eauto.
Qed.

(** ** Authenticator: what is posted, and when a session is returned *)

Lemma get_generic_credential_Some w name t cred t' :
  get_generic_credential w name t = (Ret (Some cred), t') →
  ∃ n contents,
    name = Some (PyStr n)
    ∧ cred_store w !! n = Some contents
    ∧ Forall seven_bit (bytes_read contents)
    ∧ cred = {| username := UserName contents;
                password := code_points contents |}
    ∧ t' = t ++ [EvCredRead (Some n) true; EvCredFree].
Proof.
  unfold get_generic_credential.
  destruct name as [[n|z|z|ty]|]; try discriminate.
  unfold bind, CredReadW, emit, ret.
  destruct (cred_store w !! n) as [contents|] eqn:Hc; [|discriminate].
  unfold try_finally, bind.
  rewrite password_as_list_spec.
  destruct (decide (Forall seven_bit (bytes_read contents))) as [Hb|Hb];
    [|discriminate].
  simpl. intros [= <- <-]. exists n, contents.
  by rewrite <- app_assoc.
Qed.

(** Every way a [login] can go: either nothing was posted, or the POST
    carried the form's token and its status decided the outcome. *)
Lemma login_inv w t r t' :
  login w t = (r, t') →
  (∃ evs, t' = t ++ evs
          ∧ Forall (λ ev, is_cred_event ev ∨ is_get_event ev) evs
          ∧ r ≠ Ret RequestsSession)
  ∨ (∃ url tok user pw name answer,
       posted_from_form w url tok user pw
       ∧ http w (POST url tok user pw) = inr answer
       ∧ t' = t ++ [EvCredRead (Some name) true; EvCredFree; EvHttp (GET url);
                    EvHttp (POST url tok user pw)]
       ∧ r = if bool_decide (status_code answer = 200) then Ret RequestsSession
             else Raise login_rejected).
Proof.
  unfold login.
  destruct (read_config_value "login_url" (config w)) as [url|] eqn:Hurl.
  2:{ intros [= <- <-]. left. exists []. by rewrite app_nil_r. }
  destruct (read_config_value "ACME_credential_name" (config w)) as [cn|] eqn:Hcn.
  2:{ intros [= <- <-]. left. exists []. by rewrite app_nil_r. }
  unfold bind.
  destruct (get_generic_credential w (Some cn) t) as [[cred|ex|h] t1] eqn:Hg.
  2,3: apply get_generic_credential_calls in Hg as (evs & -> & Hc);
    intros [= <- <-]; left; exists evs; split; [done|]; split; [|done];
    eapply Forall_impl; [by apply credential_calls_cred|]; by left.
  destruct cred as [cred|].
  2:{ apply get_generic_credential_calls in Hg as (evs & -> & Hc).
      intros [= <- <-]. left. exists evs. split; [done|]. split; [|done].
      eapply Forall_impl; [by apply credential_calls_cred|]. by left. }
  apply get_generic_credential_Some in Hg
    as (n & contents & [= ->] & Hstore & Hbytes & -> & ->).
  simpl. destruct (UserName contents) as [user|] eqn:Huser.
  2:{ intros [= <- <-]. left. eexists. split; [done|]. split; [|done].
      repeat constructor; by left. }
  unfold request at 1.
  destruct (http w (GET url)) as [ex|form] eqn:Hget.
  { intros [= <- <-]. left. eexists. split; [done|]. split; [|done].
    repeat constructor; by left. }
  unfold bind, emit, ret. cbv beta iota.
  destruct (find_in _ (soup_of form)) as [input|] eqn:Hinput.
  2:{ intros [= <- <-]. left. eexists. rewrite <- app_assoc.
      split; [done|]. split; [|done]. repeat constructor; (by left) || (by right). }
  destruct (tag_attrs (el_node input) !! "value") as [v|] eqn:Hv.
  2:{ intros [= <- <-]. left. eexists. rewrite <- app_assoc.
      split; [done|]. split; [|done]. repeat constructor; (by left) || (by right). }
  unfold bind, request.
  destruct (http w (POST url _ _ _)) as [ex|answer] eqn:Hpost.
  { intros [= <- <-]. left. eexists. rewrite <- app_assoc.
    split; [done|]. split; [|done]. repeat constructor; (by left) || (by right). }
  unfold bind, emit, ret. cbv beta iota. intros Hrun.
  right. exists url, (py_of_attr v), user, (code_points contents),
    n, answer.
  split; [split; [done|]; by exists n, contents, form, input, v|].
  split; [done|].
  destruct (decide (status_code answer = 200)) as [H200|H200].
  - rewrite bool_decide_eq_false_2 in Hrun by (by intros []).
    rewrite bool_decide_eq_true_2 by done.
    injection Hrun as <- <-. by rewrite <- !app_assoc.
  - rewrite bool_decide_eq_true_2 in Hrun by done.
    rewrite bool_decide_eq_false_2 by done.
    injection Hrun as <- <-. by rewrite <- !app_assoc.
Qed.

(** X8: A session comes back only from a POST answered 200 that carried the
    stored credential and the token of the form at the configured URL. *)
Theorem login_returns_only_after_200 (w : world) (t : trace) (s : Session)
    (t' : trace) :
  login w t = (Ret s, t') →
  ∃ url tok user pw name answer,
    posted_from_form w url tok user pw
    ∧ http w (POST url tok user pw) = inr answer
    ∧ status_code answer = 200
    ∧ t' = t ++ [EvCredRead (Some name) true; EvCredFree; EvHttp (GET url);
                 EvHttp (POST url tok user pw)].
Proof.
  intros [(evs & _ & _ & Hne)|(url & tok & user & pw & name & answer
                               & Hfrom & Hpost & -> & Hr)]%login_inv.
  - by destruct s.
  - exists url, tok, user, pw, name, answer.
    repeat (split; [done|]). split; [|done].
    destruct (decide (status_code answer = 200)) as [|Hne]; [done|].
    by rewrite bool_decide_eq_false_2 in Hr.
Qed.

Lemma login_returns_only_after_200_witness :
  ∃ url tok user pw name answer,
    posted_from_form Fixture.world0 url tok user pw
    ∧ http Fixture.world0 (POST url tok user pw) = inr answer
    ∧ status_code answer = 200
    ∧ (login Fixture.world0 []).2
      = [] ++ [EvCredRead (Some name) true; EvCredFree; EvHttp (GET url);
               EvHttp (POST url tok user pw)].
Proof.
  apply (login_returns_only_after_200 Fixture.world0 [] RequestsSession).
  evaluate.
Defined.

(** X9: Whatever [login] ends with, it has called the credential manager and
    the site only, and it has posted nothing but the stored credential with
    the form's token to the configured login URL. *)
Theorem login_posts_only_form_token (w : world) (t : trace) (r : result Session)
    (t' : trace) :
  login w t = (r, t') →
  ∃ evs,
    t' = t ++ evs
    ∧ Forall (λ ev, is_cred_event ev ∨ is_http_event ev) evs
    ∧ ∀ url tok user pw,
        EvHttp (POST url tok user pw) ∈ evs → posted_from_form w url tok user pw.
Proof.
  intros [(evs & -> & Hevs & _)|(url & tok & user & pw & name & answer
                                 & Hfrom & _ & -> & _)]%login_inv.
  - exists evs. split; [done|]. split.
    + eapply Forall_impl; [exact Hevs|]. intros [] [H|H]; simpl in *; tauto || destruct req; tauto.
    + intros url tok user pw Hin. rewrite Forall_forall in Hevs.
      destruct (Hevs _ Hin) as [[]|[]].
  - eexists. split; [done|]. split.
    + repeat constructor; simpl; tauto.
    + intros url' tok' user' pw' Hin.
      repeat (apply elem_of_cons in Hin as [Hin|Hin]; [try discriminate|]).
      * by injection Hin as -> -> -> ->.
      * by apply elem_of_nil in Hin.
Qed.

Lemma login_posts_only_form_token_witness :
  ∃ evs,
    (login (Fixture.world_with_site (Fixture.site 204)) []).2 = [] ++ evs
    ∧ Forall (λ ev, is_cred_event ev ∨ is_http_event ev) evs
    ∧ ∀ url tok user pw,
        EvHttp (POST url tok user pw) ∈ evs →
        posted_from_form (Fixture.world_with_site (Fixture.site 204)) url tok user pw.
Proof.
  eapply (login_posts_only_form_token (Fixture.world_with_site (Fixture.site 204)) []).
  apply surjective_pairing.
Defined.

(** ** Persistence sink: every way a run can end *)

Lemma getattr_row_trace cols cells label t r t' :
  getattr_row cols cells label t = (r, t') → t' = t.
Proof.
  unfold getattr_row.
  destruct (positions_from 0 label cols) as [|j [|j' l]]; by intros [= _ <-].
Qed.

(** The INSERTs of a loop over [rws]: at most one per record, and one per
    record exactly when the loop returns. *)
Lemma insert_rows_inv w cols rws : ∀ t r t',
  insert_rows w cols rws t = (r, t') →
  ∃ evs, t' = t ++ evs
         ∧ Forall is_db_event evs
         ∧ Forall is_execute (db_ops evs)
         ∧ (length (db_ops evs) ≤ length rws)%nat
         ∧ (r = Ret tt ↔ length (db_ops evs) = length rws).
Proof.
  induction rws as [|row rws IH]; intros t r t' Hrun.
  - injection Hrun as <- <-. exists []. rewrite app_nil_r.
    repeat split; by constructor.
  - simpl in Hrun. unfold bind in Hrun.
    assert (Hstop : ∀ ex, r = Raise ex → t' = t →
              ∃ evs, t' = t ++ evs ∧ Forall is_db_event evs
                     ∧ Forall is_execute (db_ops evs)
                     ∧ (length (db_ops evs) ≤ length (row :: rws))%nat
                     ∧ (r = Ret tt ↔ length (db_ops evs) = length (row :: rws))).
    { intros ex -> ->. exists []. rewrite app_nil_r.
      repeat split; try by constructor. simpl; lia. discriminate. simpl; lia. }
    repeat (match type of Hrun with
            | context [getattr_row ?c ?r0 ?l ?t0] =>
                let E := fresh "E" in
                destruct (getattr_row c r0 l t0) as [[?|?|?] ?] eqn:E;
                pose proof (getattr_row_trace _ _ _ _ _ _ E); subst;
                [clear E
                |injection Hrun as <- <-; by eapply Hstop
                |unfold getattr_row in E;
                 destruct (positions_from 0 l c) as [|? [|? ?]]; discriminate]
            end).
    unfold db_call in Hrun.
    destruct (db w _) as [ex|] eqn:Hdb.
    { injection Hrun as <- <-. by eapply Hstop. }
    unfold emit in Hrun.
    apply IH in Hrun as (evs & -> & Hdbev & Hex & Hle & Hiff).
    eexists (_ :: evs). rewrite <- app_assoc.
    split; [reflexivity|]. split; [by constructor|].
    simpl. split; [constructor; [by eexists|done]|].
    split; [lia|]. rewrite Hiff. lia.
Qed.

Lemma insert_into_db_inv w results t r t' :
  insert_into_db w results t = (r, t') →
  ∃ evs, t' = t ++ evs
         ∧ Forall (λ ev, is_cred_event ev ∨ is_db_event ev) evs
         ∧ insert_shape (length (rows results)) r (db_ops evs).
Proof.
  unfold insert_into_db.
  destruct (0 <? length (rows results))%nat.
  2:{ intros [= <- <-]. exists []. rewrite app_nil_r.
      split; [done|]. split; [done|]. by left. }
  unfold bind.
  destruct (get_generic_credential w _ t) as [[cred|ex|h] t1] eqn:Hg;
    apply get_generic_credential_calls in Hg as (cevs & -> & Hc);
    pose proof (credential_calls_no_db _ Hc) as Hnodb;
    assert (Hcred : Forall (λ ev, is_cred_event ev ∨ is_db_event ev) cevs)
      by (eapply Forall_impl; [by apply credential_calls_cred|]; by left).
  2,3: intros [= <- <-]; exists cevs; split; [done|]; split; [done|];
    rewrite Hnodb; by left.
  assert (Hstop : ∀ ex, ∃ evs, t ++ cevs = t ++ evs
            ∧ Forall (λ ev, is_cred_event ev ∨ is_db_event ev) evs
            ∧ insert_shape (length (rows results)) (Raise ex) (db_ops evs)).
  { intros ex. exists cevs. split; [done|]. split; [done|]. rewrite Hnodb. by left. }
  destruct cred as [c|]; [|intros [= <- <-]; apply Hstop]. simpl.
  destruct (read_config_value "DB_server_name" (config w)) as [server|];
    [|intros [= <- <-]; apply Hstop].
  destruct (username c) as [user|]; [|intros [= <- <-]; apply Hstop].
  destruct server as [server|z|z|ty]; try (intros [= <- <-]; apply Hstop). simpl.
  clear Hstop.
  unfold db_call at 1.
  destruct (db w (DbConnect _ _ _ _)) as [ex|].
  { intros [= <- <-]. exists cevs. split; [done|]. split; [done|].
    rewrite Hnodb. by left. }
  unfold emit at 1. cbv beta iota.
  set (connect := DbConnect server "Automations" user (password c)).
  assert (Hconn : is_connect connect) by (by do 4 eexists).
  unfold db_call at 1.
  destruct (db w DbCursor) as [ex|].
  { intros [= <- <-]. exists (cevs ++ [EvDb connect]). rewrite app_assoc.
    split; [done|]. split; [apply Forall_app; split; [done|]; repeat constructor; by right|].
    rewrite db_ops_app, Hnodb. right. exists connect. split; [done|]. by left. }
  unfold emit at 1. cbv beta iota.
  destruct (insert_rows w _ _ _) as [rr t3] eqn:Hins.
  apply insert_rows_inv in Hins as (ins & -> & Hdbev & Hex & Hle & Hiff).
  assert (Hpre : Forall (λ ev, is_cred_event ev ∨ is_db_event ev)
                   (cevs ++ [EvDb connect; EvDb DbCursor] ++ ins)).
  { apply Forall_app; split; [done|]. apply Forall_app; split.
    - repeat constructor; by right.
    - eapply Forall_impl; [exact Hdbev|]. by right. }
  destruct rr as [[]|ex|h].
  2,3: intros [= <- <-]; exists (cevs ++ [EvDb connect; EvDb DbCursor] ++ ins);
    rewrite <- !app_assoc; (split; [done|]); (split; [done|]);
    rewrite !db_ops_app, Hnodb; right; exists connect; (split; [done|]);
    right; exists (db_ops ins); (split; [done|]); left; done.
  assert (Hlen : length (db_ops ins) = length (rows results)) by (by apply Hiff).
  unfold db_call at 1.
  destruct (db w DbCommit) as [ex|].
  { intros [= <- <-]. exists (cevs ++ [EvDb connect; EvDb DbCursor] ++ ins).
    rewrite <- !app_assoc. split; [done|]. split; [done|].
    rewrite !db_ops_app, Hnodb. right. exists connect. split; [done|].
    right. exists (db_ops ins). split; [done|]. left. split; [done|]. split; [lia|done]. }
  unfold emit at 1. cbv beta iota. unfold db_call.
  destruct (db w DbCursorClose) as [ex|].
  - intros [= <- <-].
    exists (cevs ++ [EvDb connect; EvDb DbCursor] ++ ins ++ [EvDb DbCommit]).
    rewrite <- !app_assoc. split; [done|].
    split.
    { rewrite !app_assoc. apply Forall_app. split; [by rewrite <- !app_assoc|].
      repeat constructor; by right. }
    rewrite !db_ops_app, Hnodb. right. exists connect. split; [done|].
    right. exists (db_ops ins). split; [done|]. right. left. done.
  - unfold emit. intros [= <- <-].
    exists (cevs ++ [EvDb connect; EvDb DbCursor] ++ ins
              ++ [EvDb DbCommit; EvDb DbCursorClose]).
    rewrite <- !app_assoc. split; [done|].
    split.
    { rewrite !app_assoc. apply Forall_app. split; [by rewrite <- !app_assoc|].
      repeat constructor; by right. }
    rewrite !db_ops_app, Hnodb. right. exists connect. split; [done|].
    right. exists (db_ops ins). split; [done|]. right. right. done.
Qed.

Lemma execute_not_in (op : db_op) execs :
  Forall is_execute execs → (¬ is_execute op) → op ∉ execs.
Proof.
  intros Hex Hop Hin. rewrite Forall_forall in Hex. by apply Hop, Hex.
Qed.

Lemma commit_not_execute : ¬ is_execute DbCommit.
Proof. by intros [params ?]. Qed.

Lemma close_not_execute : ¬ is_execute DbCursorClose.
Proof. by intros [params ?]. Qed.

(** X12: Whatever [insert_into_db] ends with, it has called the credential
    manager and the database only, and a commit was issued only after one
    INSERT for every record of the collection. *)
Theorem insert_into_db_commits_after_all_rows (w : world) (results : DataFrame)
    (t : trace) (r : result unit) (t' : trace) :
  insert_into_db w results t = (r, t') →
  ∃ evs,
    t' = t ++ evs
    ∧ Forall (λ ev, is_cred_event ev ∨ is_db_event ev) evs
    ∧ (DbCommit ∈ db_ops evs →
       ∃ connect execs rest,
         db_ops evs = [connect; DbCursor] ++ execs ++ DbCommit :: rest
         ∧ is_connect connect
         ∧ Forall is_execute execs
         ∧ length execs = length (rows results)).
Proof.
  intros (evs & -> & Hevs & Hshape)%insert_into_db_inv.
  exists evs. split; [done|]. split; [done|]. intros Hin.
  destruct Hshape as [[Hops _]|(connect & Hconn & [[Hops _]|(execs & Hex & Hcases)])].
  - rewrite Hops in Hin. by apply elem_of_nil in Hin.
  - rewrite Hops in Hin. apply list_elem_of_singleton in Hin.
    destruct Hconn as (? & ? & ? & ? & ->). discriminate.
  - destruct Hcases as [(Hops & _ & _)|[(Hlen & Hops & _)|(Hlen & Hops & _)]].
    + exfalso. rewrite Hops in Hin.
      apply elem_of_cons in Hin as [Hin|Hin].
      { destruct Hconn as (? & ? & ? & ? & ->). discriminate. }
      apply elem_of_cons in Hin as [Hin|Hin]; [discriminate|].
      exact (execute_not_in _ _ Hex commit_not_execute Hin).
    + exists connect, execs, []. by rewrite Hops.
    + exists connect, execs, [DbCursorClose]. by rewrite Hops.
Qed.

Lemma insert_into_db_commits_after_all_rows_witness :
  ∃ evs,
    (insert_into_db Fixture.world0 Fixture.open_items []).2 = [] ++ evs
    ∧ Forall (λ ev, is_cred_event ev ∨ is_db_event ev) evs
    ∧ (DbCommit ∈ db_ops evs →
       ∃ connect execs rest,
         db_ops evs = [connect; DbCursor] ++ execs ++ DbCommit :: rest
         ∧ is_connect connect
         ∧ Forall is_execute execs
         ∧ length execs = length (rows Fixture.open_items)).
Proof.
  eapply (insert_into_db_commits_after_all_rows Fixture.world0 Fixture.open_items []).
  apply surjective_pairing.
Defined.

(** X13: [insert_into_db] returns exactly when it has closed its cursor: every
    run that ends with an exception, whether a refused INSERT, a missing
    field or a failed commit, leaves the cursor it opened unclosed. *)
Theorem insert_into_db_closes_cursor_iff_returns (w : world) (results : DataFrame)
    (t : trace) (r : result unit) (t' : trace) :
  insert_into_db w results t = (r, t') →
  ∃ evs, t' = t ++ evs ∧ (DbCursorClose ∈ db_ops evs ↔ r = Ret tt).
Proof.
  intros (evs & -> & _ & Hshape)%insert_into_db_inv.
  exists evs. split; [done|].
  assert (Hconnect : ∀ connect, is_connect connect → DbCursorClose ≠ connect).
  { intros connect (? & ? & ? & ? & ->). discriminate. }
  destruct Hshape as [[Hops Hr]|(connect & Hconn & [[Hops Hr]|(execs & Hex & Hcases)])].
  - rewrite Hops. split; [by intros ?%elem_of_nil|done].
  - rewrite Hops. split; [|done].
    intros Hin%list_elem_of_singleton. by apply Hconnect in Hin.
  - destruct Hcases as [(Hops & _ & Hr)|[(Hlen & Hops & Hr)|(Hlen & Hops & Hr)]];
      rewrite Hops.
    + split; [|done]. intros Hin. exfalso.
      apply elem_of_cons in Hin as [Hin|Hin]; [by apply Hconnect in Hin|].
      apply elem_of_cons in Hin as [Hin|Hin]; [discriminate|].
      exact (execute_not_in _ _ Hex close_not_execute Hin).
    + split; [|done]. intros Hin. exfalso.
      apply elem_of_cons in Hin as [Hin|Hin]; [by apply Hconnect in Hin|].
      apply elem_of_cons in Hin as [Hin|Hin]; [discriminate|].
      apply elem_of_app in Hin as [Hin|Hin].
      * exact (execute_not_in _ _ Hex close_not_execute Hin).
      * apply list_elem_of_singleton in Hin. discriminate.
    + split; [done|]. intros _.
      do 2 (apply elem_of_cons; right). apply elem_of_app. right.
      apply elem_of_cons. right. by apply elem_of_cons; left.
Qed.

Lemma insert_into_db_closes_cursor_iff_returns_witness :
  ∃ evs,
    (insert_into_db Fixture.world_db_refuses Fixture.open_items []).2 = [] ++ evs
    ∧ (DbCursorClose ∈ db_ops evs
       ↔ (insert_into_db Fixture.world_db_refuses Fixture.open_items []).1 = Ret tt).
Proof.
  eapply (insert_into_db_closes_cursor_iff_returns Fixture.world_db_refuses
            Fixture.open_items []).
  apply surjective_pairing.
Defined.

(** ** Paginated scraper: how a crawl can fail *)

Lemma scrape_loop_crawl_to w session u pages v :
  crawl_to w u pages v →
  ∀ fuel acc t,
    scrape_loop (length pages + fuel) w session (Some u) acc t
    = scrape_loop fuel w session (Some v) (acc ++ crawled_rows pages)
                  (t ++ fetches pages).
Proof.
  induction 1 as [u|u page next rest v Hok Hnext Hne Hrest IH]; intros fuel acc t.
  - unfold crawled_rows, fetches. simpl. by rewrite !app_nil_r.
  - change (length ((u, page) :: rest) + fuel)%nat with (S (length rest + fuel)).
    rewrite (scrape_loop_step _ _ _ _ page) by done. rewrite Hnext.
    rewrite bool_decide_eq_true_2 by congruence.
    rewrite IH. unfold crawled_rows, fetches. simpl. by rewrite <- !app_assoc.
Qed.

Lemma scraping_raise fuel w session t ex t1 :
  scrape_loop fuel w session (read_config_value "extract_url" (config w)) [] t
  = (Raise ex, t1) →
  scraping fuel w session t = (Raise ex, t1).
Proof. intros Hloop. unfold scraping, bind. by rewrite Hloop. Qed.

(** X3: A page anywhere in the pagination that answers with a status other
    than 200 ends the scrape with the BusinessException of the fetch, after
    that fetch; the rows of the pages before it are not returned. *)
Theorem scraping_aborts_on_refused_page (w : world) (session : Session)
    (u v : pyval) (pages : list (pyval * response)) (page : response)
    (fuel : nat) (t : trace) :
  read_config_value "extract_url" (config w) = Some u →
  crawl_to w u pages v →
  http w (GET v) = inr page →
  status_code page ≠ 200 →
  (length pages < fuel)%nat →
  scraping fuel w session t
  = (Raise fetch_refused, t ++ fetches pages ++ [EvHttp (GET v)])
  ∧ is_business fetch_refused = true.
Proof.
  intros Hurl Hcrawl Hget Hst Hfuel. split; [|reflexivity].
  apply scraping_raise. rewrite Hurl.
  replace fuel with (length pages + S (fuel - S (length pages)))%nat by lia.
  rewrite (scrape_loop_crawl_to _ _ _ _ _ Hcrawl).
  simpl. unfold bind, request. rewrite Hget. simpl.
  rewrite bool_decide_eq_true_2 by done. by rewrite <- app_assoc.
Qed.

Lemma first_two_crawl_to (h : http_request → exn + response) :
  h (GET (PyStr Fixture.url1))
  = inr {| status_code := 200; soup_of := Fixture.page1 |} →
  h (GET (PyStr Fixture.url2))
  = inr {| status_code := 200; soup_of := Fixture.page2 |} →
  crawl_to (Fixture.world_with_site h) (PyStr Fixture.url1) Cases.first_two
           (PyStr Fixture.url3).
Proof.
  intros H1 H2.
  eapply crawl_to_next;
    [split; [exact H1|split; [reflexivity|vm_compute; eauto]]|evaluate|done|].
  eapply crawl_to_next;
    [split; [exact H2|split; [reflexivity|vm_compute; eauto]]|evaluate|done|].
  apply crawl_to_here.
Qed.

Lemma scraping_aborts_on_refused_page_witness :
  scraping 3 (Fixture.world_with_site Cases.site_gone3) RequestsSession []
  = (Raise fetch_refused,
     [] ++ fetches Cases.first_two ++ [EvHttp (GET (PyStr Fixture.url3))])
  ∧ is_business fetch_refused = true.
Proof.
  apply (scraping_aborts_on_refused_page
           (Fixture.world_with_site Cases.site_gone3) RequestsSession
           (PyStr Fixture.url1) (PyStr Fixture.url3) Cases.first_two
           {| status_code := 404; soup_of := Tag "[document]" ∅ [] |} 3 []).
  - evaluate.
  - apply first_two_crawl_to; evaluate.
  - evaluate.
  - done.
  - simpl; lia.
Defined.

Lemma crawl_to_crawl w u pages v rest :
  crawl_to w u pages v → crawl w v rest → crawl w u (pages ++ rest).
Proof.
  induction 1 as [u|u page next pages' v Hok Hnext Hne Hto IH]; intros Hrest;
    [done|].
  simpl. eapply crawl_next; eauto.
Qed.

Lemma positions_from_absent label cols s :
  label ∉ cols → positions_from s label cols = [].
Proof.
  intros Hnot.
  destruct (positions_from s label cols) as [|j l] eqn:E; [done|].
  exfalso. apply Hnot.
  assert (Hj : j ∈ positions_from s label cols) by (rewrite E; apply elem_of_cons; by left).
  apply positions_from_spec in Hj as (i & _ & Hi).
  by eapply list_elem_of_lookup_2.
Qed.

(** X4: After a complete crawl, a last page with no header cell reading Status
    makes [scraping] raise the KeyError of the Status filter, which is not a
    BusinessException; what was scraped is not returned. *)
Theorem scraping_needs_status_header (w : world) (session : Session) (u : pyval)
    (pages : list (pyval * response)) (frame : DataFrame) (fuel : nat)
    (t : trace) :
  read_config_value "extract_url" (config w) = Some u →
  crawl w u pages →
  (length pages ≤ fuel)%nat →
  pd_DataFrame (crawled_rows pages) (header_cells (final_soup pages)) = Ret frame →
  "Status" ∉ header_cells (final_soup pages) →
  scraping fuel w session t = (Raise (KeyError "'Status'"), t ++ fetches pages)
  ∧ is_business (KeyError "'Status'") = false.
Proof.
  intros Hurl Hcrawl Hfuel Hframe Hnot. split; [|reflexivity].
  unfold scraping, bind, lift. rewrite Hurl.
  rewrite (scrape_loop_crawl w session u pages Hcrawl fuel [] t Hfuel).
  simpl. rewrite Hframe. unfold filter_open.
  apply pd_DataFrame_ret in Hframe as (-> & _).
  by rewrite positions_from_absent.
Qed.

(** X5: After a complete crawl with rows, [scraping] raises the ValueError of
    the frame construction, not a BusinessException, unless the longest
    accumulated row has exactly as many cells as the last page has header
    cells. *)
Theorem scraping_header_count_must_match (w : world) (session : Session)
    (u : pyval) (pages : list (pyval * response)) (fuel : nat) (t : trace) :
  read_config_value "extract_url" (config w) = Some u →
  crawl w u pages →
  (length pages ≤ fuel)%nat →
  crawled_rows pages ≠ [] →
  length (header_cells (final_soup pages)) ≠ table_width (crawled_rows pages) →
  scraping fuel w session t = (Raise (wrong_width pages), t ++ fetches pages)
  ∧ is_business (wrong_width pages) = false.
Proof.
  intros Hurl Hcrawl Hfuel Hrows Hwidth. split; [|reflexivity].
  unfold scraping, bind, lift. rewrite Hurl.
  rewrite (scrape_loop_crawl w session u pages Hcrawl fuel [] t Hfuel).
  simpl. unfold pd_DataFrame, wrong_width, width_message.
  destruct (crawled_rows pages) as [|row data] eqn:E; [done|].
  by rewrite bool_decide_eq_false_2.
Qed.

Lemma listing_with_crawl (third : node) (active_pg : option element) :
  is_Some (page_table {| status_code := 200; soup_of := third |}) →
  page_marker {| status_code := 200; soup_of := third |} = Some active_pg →
  exhausted active_pg →
  crawl (Fixture.world_with_site (Fixture.site_with third 200))
        (PyStr Fixture.url1) (Cases.listing_with third).
Proof.
  intros Htable Hmarker Hdone.
  eapply crawl_to_crawl; [apply first_two_crawl_to; reflexivity|].
  eapply crawl_last; [|exact Hmarker|exact Hdone].
  split; [reflexivity|]. by split.
Qed.

Lemma scraping_needs_status_header_witness :
  scraping 3 (Fixture.world_with_site (Fixture.site_with Cases.page3_state 200))
           RequestsSession []
  = (Raise (KeyError "'Status'"), [] ++ fetches (Cases.listing_with Cases.page3_state))
  ∧ is_business (KeyError "'Status'") = false.
Proof.
  eapply (scraping_needs_status_header
            (Fixture.world_with_site (Fixture.site_with Cases.page3_state 200))
            RequestsSession (PyStr Fixture.url1)
            (Cases.listing_with Cases.page3_state) _ 3 []).
  - evaluate.
  - eapply listing_with_crawl; [vm_compute; eauto|evaluate|].
    right; left. eexists. split; [reflexivity|evaluate].
  - simpl; lia.
  - evaluate.
  - vm_compute. intros Hin.
    repeat (apply elem_of_cons in Hin as [Hin|Hin]; [discriminate|]).
    by apply elem_of_nil in Hin.
Defined.

Lemma scraping_header_count_must_match_witness :
  scraping 3 (Fixture.world_with_site (Fixture.site_with Cases.page3_rows_only 200))
           RequestsSession []
  = (Raise (wrong_width (Cases.listing_with Cases.page3_rows_only)),
     [] ++ fetches (Cases.listing_with Cases.page3_rows_only))
  ∧ is_business (wrong_width (Cases.listing_with Cases.page3_rows_only)) = false.
Proof.
  eapply (scraping_header_count_must_match
            (Fixture.world_with_site (Fixture.site_with Cases.page3_rows_only 200))
            RequestsSession (PyStr Fixture.url1)
            (Cases.listing_with Cases.page3_rows_only) 3 []).
  - evaluate.
  - eapply listing_with_crawl; [vm_compute; eauto|evaluate|].
    right; left. eexists. split; [reflexivity|evaluate].
  - simpl; lia.
  - vm_compute. discriminate.
  - vm_compute. discriminate.
Defined.

(** ** Paginated scraper: the shape of what is returned *)




Lemma positions_from_count label cols : ∀ s,
  length (positions_from s label cols) = length (filter (λ c, c = label) cols).
Proof.
  induction cols as [|c cols IH]; intros s; [done|].
  simpl. rewrite filter_cons.
  case_bool_decide; case_decide; try done; simpl; by rewrite IH.
Qed.

Lemma filter_status_without_actions (cols : list string) :
  filter (λ c, c = "Status") (filter (λ c, c ≠ "Actions") cols)
  = filter (λ c, c = "Status") cols.
Proof.
  induction cols as [|c cols IH]; [done|].
  rewrite !filter_cons.
  destruct (decide (c ≠ "Actions")) as [Hc|Hc].
  - rewrite filter_cons. by rewrite IH.
  - destruct (decide (c = "Status")) as [->|]; [|done].
    exfalso. by apply Hc.
Qed.



(** In a returned collection the one Status cell of every row is Open. *)
Lemma scraping_rows_open fuel w session t df t' :
  scraping fuel w session t = (Ret df, t') →
  ∃ j, positions_from 0 "Status" (columns df) = [j]
       ∧ Forall (λ row, row.2 !! j = Some (Some "Open")) (rows df).
Proof.
  intros Hrun.
  destruct (scraping_ret _ _ _ _ _ _ Hrun)
    as (pages & frame & open & Hscraped & Hopen & ->).
  pose proof (records_drop_actions _ _ Hopen) as Hrec.
  destruct (filter_open_ret _ _ Hopen) as (j & Hpos & Hocols & _).
  assert (Hone : length (positions_from 0 "Status" (columns (drop_actions open)))
                 = 1%nat).
  { rewrite positions_from_count. unfold drop_actions. simpl.
    rewrite select_labels, filter_status_without_actions, Hocols.
    by rewrite <- (positions_from_count _ _ 0), Hpos. }
  destruct (positions_from 0 "Status" (columns (drop_actions open)))
    as [|j' [|? ?]] eqn:Hpos'; try discriminate.
  exists j'. split; [done|].
  apply Forall_forall. intros r Hr.
  assert (Hin : (r.1, zip (columns (drop_actions open)) r.2)
                ∈ records (drop_actions open)).
  { unfold records. apply list_elem_of_fmap. by exists r. }
  rewrite Hrec in Hin.
  apply list_elem_of_fmap in Hin as (rec & Heq & [Hst _]%list_elem_of_filter).
  unfold without_actions in Heq.
  pose proof (f_equal snd Heq) as Hzip. cbn [snd] in Hzip.
  unfold status_open in Hst.
  assert (Hmem : ("Status", Some "Open") ∈ zip (columns (drop_actions open)) r.2).
  { rewrite Hzip. apply list_elem_of_filter. by split. }
  apply list_elem_of_lookup in Hmem as [i Hi].
  apply lookup_zip_with_Some in Hi as (l & c & [= <- <-] & Hl & Hc).
  assert (Hij : i ∈ positions_from 0 "Status" (columns (drop_actions open)))
    by (apply positions_from_spec; by exists i).
  rewrite Hpos' in Hij. by apply list_elem_of_singleton in Hij as ->.
Qed.

Lemma yields_ret {A} Good (P : A → Prop) a : P a → yields Good P (ret a).
Proof.
  intros HP t r t' [= <- <-]. split.
  - exists []. by rewrite app_nil_r.
  - by intros a' [= <-].
Qed.

Lemma yields_raise {A} Good (P : A → Prop) ex : yields Good P (raise ex).
Proof.
  intros t r t' [= <- <-]. split; [|done].
  exists []. by rewrite app_nil_r.
Qed.

Lemma yields_bind {A B} Good (P : A → Prop) (Q : B → Prop) (m : M A) (k : A → M B) :
  yields Good P m → (∀ a, P a → yields Good Q (k a)) → yields Good Q (bind m k).
Proof.
  intros Hm Hk t r t' Hrun. unfold bind in Hrun.
  destruct (m t) as [[a|ex|h] t1] eqn:E;
    apply Hm in E as [(evs & -> & Hevs) Hval].
  - apply (Hk a (Hval a eq_refl)) in Hrun as [(evs2 & -> & Hevs2) HQ].
    split; [|done]. exists (evs ++ evs2). rewrite app_assoc.
    split; [done|]. by apply Forall_app.
  - injection Hrun as <- <-. split; [eauto|done].
  - injection Hrun as <- <-. split; [eauto|done].
Qed.

Lemma yields_db_call Good w op :
  Good (EvDb op) → yields Good (λ _, True) (db_call w op).
Proof.
  intros Hop t r t'. unfold db_call.
  destruct (db w op) as [ex|]; [apply yields_raise|].
  intros [= <- <-]. split; [|done]. exists [EvDb op]. split; [done|by constructor].
Qed.

Lemma yields_getattr_row Good cols cells label :
  yields Good (λ _, True) (getattr_row cols cells label).
Proof.
  unfold getattr_row.
  destruct (positions_from 0 label cols) as [|j [|j' l]];
    (apply yields_raise || by apply yields_ret).
Qed.

Lemma yields_getattr_status Good cols cells j :
  positions_from 0 "Status" cols = [j] →
  cells !! j = Some (Some "Open") →
  yields Good (λ s, s = Scalar (Some "Open")) (getattr_row cols cells "Status").
Proof.
  intros Hpos Hcell. unfold getattr_row. rewrite Hpos, Hcell.
  by apply yields_ret.
Qed.

Lemma yields_insert_rows w cols j rws :
  positions_from 0 "Status" cols = [j] →
  Forall (λ row, row.2 !! j = Some (Some "Open")) rws →
  yields inserts_open (λ _, True) (insert_rows w cols rws).
Proof.
  intros Hpos. induction 1 as [|row rws Hrow _ IH]; [by apply yields_ret|].
  cbn [insert_rows].
  eapply yields_bind; [apply yields_getattr_row|]. intros wiid _.
  eapply yields_bind; [apply yields_getattr_row|]. intros description _.
  eapply yields_bind; [apply yields_getattr_row|]. intros type _.
  eapply yields_bind; [by apply (yields_getattr_status _ _ _ j)|].
  intros status ->.
  eapply yields_bind; [apply yields_getattr_row|]. intros date _.
  eapply yields_bind; [|intros _ _; exact IH].
  apply yields_db_call. intros sql params [= <- <-]. split; [done|].
  by exists wiid, description, type, date.
Qed.

Lemma yields_get_generic_credential w name :
  yields inserts_open (λ _, True) (get_generic_credential w name).
Proof.
  intros t r t' (evs & -> & Hcalls)%get_generic_credential_calls.
  split; [|done]. exists evs. split; [done|].
  apply Forall_forall. intros ev Hev sql params ->.
  destruct Hcalls as [->|[[n ->]|[n ->]]];
    repeat (apply elem_of_cons in Hev as [Hev|Hev]; [discriminate|]);
    by apply elem_of_nil in Hev.
Qed.

Lemma yields_insert_into_db w results j :
  positions_from 0 "Status" (columns results) = [j] →
  Forall (λ row, row.2 !! j = Some (Some "Open")) (rows results) →
  yields inserts_open (λ _, True) (insert_into_db w results).
Proof.
  intros Hpos Hopen. unfold insert_into_db.
  destruct (0 <? length (rows results))%nat; [|apply yields_raise].
  eapply yields_bind; [apply yields_get_generic_credential|]. intros cred _.
  eapply yields_bind with (P := λ _, True).
  { destruct cred; [by apply yields_ret|apply yields_raise]. }
  intros up _.
  destruct (read_config_value "DB_server_name" (config w)) as [server|];
    [|apply yields_raise].
  destruct (up.1) as [user|]; [|apply yields_raise].
  eapply yields_bind with (P := λ _, True).
  { destruct server; (by apply yields_ret) || apply yields_raise. }
  intros server' _.
  eapply yields_bind; [apply yields_db_call; by intros sql params [=]|]. intros _ _.
  eapply yields_bind; [apply yields_db_call; by intros sql params [=]|]. intros _ _.
  eapply yields_bind; [by apply (yields_insert_rows _ _ j)|]. intros _ _.
  eapply yields_bind; [apply yields_db_call; by intros sql params [=]|]. intros _ _.
  apply yields_db_call. by intros sql params [=].
Qed.

(** X7: Whatever [insert_into_db] ends with on a collection that [scraping]
    returned, every INSERT it has issued carries the single string Open as
    its Status parameter, never a missing value and never several; and when
    it returns it has issued one such INSERT for every record. *)
Theorem scraped_rows_insert_open (fuel : nat) (w : world) (session : Session)
    (t : trace) (df : DataFrame) (t1 : trace) (r : result unit) (t2 : trace) :
  scraping fuel w session t = (Ret df, t1) →
  insert_into_db w df t1 = (r, t2) →
  ∃ evs,
    t2 = t1 ++ evs
    ∧ (∀ sql params, EvDb (DbExecute sql params) ∈ evs →
         sql = insert_sql
         ∧ ∃ wiid description type date,
             params = [wiid; description; type; Scalar (Some "Open"); date])
    ∧ (r = Ret tt →
       ∃ connect execs,
         db_ops evs = [connect; DbCursor] ++ execs ++ [DbCommit; DbCursorClose]
         ∧ length execs = length (rows df)
         ∧ Forall (λ op, ∃ wiid description type date,
                      op = DbExecute insert_sql
                             [wiid; description; type; Scalar (Some "Open"); date])
                  execs).
Proof.
  intros (j & Hpos & Hopen)%scraping_rows_open Hins.
  destruct (yields_insert_into_db w df j Hpos Hopen _ _ _ Hins)
    as [(evs & -> & Hgood) _].
  exists evs. split; [done|].
  rewrite Forall_forall in Hgood.
  assert (Hparams : ∀ sql params, EvDb (DbExecute sql params) ∈ evs →
            sql = insert_sql
            ∧ ∃ wiid description type date,
                params = [wiid; description; type; Scalar (Some "Open"); date]).
  { intros sql params Hin. by apply (Hgood _ Hin). }
  split; [done|]. intros ->.
  apply insert_into_db_ret in Hins as (connect & execs & Hops & _ & Hexecs & Hlen).
  rewrite db_ops_app in Hops. apply app_inv_head in Hops.
  exists connect, execs. split; [done|]. split; [done|].
  apply Forall_forall. intros op Hop.
  rewrite Forall_forall in Hexecs. destruct (Hexecs _ Hop) as [params ->].
  assert (Hin : EvDb (DbExecute insert_sql params) ∈ evs).
  { assert (Hmem : DbExecute insert_sql params ∈ db_ops evs).
    { rewrite Hops. do 2 (apply elem_of_cons; right).
      apply elem_of_app. by left. }
    unfold db_ops in Hmem. apply list_elem_of_omap in Hmem as (ev & Hev & Heq).
    destruct ev; try discriminate. by injection Heq as ->. }
  destruct (Hparams _ _ Hin) as (_ & wiid & description & type & date & ->).
  by exists wiid, description, type, date.
Qed.

(** The three Open items of the fixture, inserted after the crawl. *)
Lemma scraped_rows_insert_open_witness :
  db_ops (insert_into_db Fixture.world0 Fixture.open_items
                         (fetches Fixture.listing)).2
  = [ DbConnect "localhost" "Automations" "sa" [112; 119]; DbCursor;
      DbExecute insert_sql
        [Scalar (Some "101"); Scalar (Some "Calculate Client Security Hash");
         Scalar (Some "WI5"); Scalar (Some "Open"); Scalar (Some "2020-01-05")];
      DbExecute insert_sql
        [Scalar (Some "103"); Scalar (Some "Process Vendor Invoices");
         Scalar (Some "WI4"); Scalar (Some "Open"); Scalar (Some "2020-02-11")];
      DbExecute insert_sql
        [Scalar (Some "105"); Scalar (Some "Update Client Records");
         Scalar (Some "WI3"); Scalar (Some "Open"); Scalar (Some "2020-03-09")];
      DbCommit; DbCursorClose ]
  ∧ ∃ evs,
      (insert_into_db Fixture.world0 Fixture.open_items (fetches Fixture.listing)).2
      = fetches Fixture.listing ++ evs
      ∧ (∀ sql params, EvDb (DbExecute sql params) ∈ evs →
           sql = insert_sql
           ∧ ∃ wiid description type date,
               params = [wiid; description; type; Scalar (Some "Open"); date])
      ∧ ((insert_into_db Fixture.world0 Fixture.open_items
                         (fetches Fixture.listing)).1 = Ret tt →
         ∃ connect execs,
           db_ops evs = [connect; DbCursor] ++ execs ++ [DbCommit; DbCursorClose]
           ∧ length execs = length (rows Fixture.open_items)
           ∧ Forall (λ op, ∃ wiid description type date,
                        op = DbExecute insert_sql
                               [wiid; description; type; Scalar (Some "Open"); date])
                    execs).
Proof.
  split; [evaluate|].
  apply (scraped_rows_insert_open 3 Fixture.world0 RequestsSession []
           Fixture.open_items (fetches Fixture.listing)).
  - evaluate.
  - apply surjective_pairing.
Defined.

(** ** Notifier: every way a [send_email] can end *)

Lemma smtp_ops_app t1 t2 : smtp_ops (t1 ++ t2) = smtp_ops t1 ++ smtp_ops t2.
Proof. unfold smtp_ops. apply omap_app. Qed.

Lemma credential_calls_no_smtp evs : credential_calls evs → smtp_ops evs = [].
Proof. by intros [->|[[name ->]|[name ->]]]. Qed.

Lemma smtp_ops_fmap l : smtp_ops (EvSmtp <$> l) = l.
Proof.
  unfold smtp_ops. induction l as [|op l IH]; [done|].
  rewrite fmap_cons. cbn [omap list_omap]. by rewrite IH.
Qed.

Lemma send_email_inv w user_type subject content attachment_name file t r t' :
  send_email w user_type subject content attachment_name file t = (r, t') →
  ∃ evs,
    t' = t ++ evs
    ∧ Forall (λ ev, is_cred_event ev ∨ is_smtp_event ev) evs
    ∧ ((smtp_ops evs = [] ∧ r ≠ Ret tt)
       ∨ ∃ SERVER PORT user pw TO k,
           email_parameters w user_type SERVER PORT user pw TO
           ∧ (1 ≤ k ≤ 6)%nat
           ∧ smtp_ops evs
             = take k (smtp_session SERVER PORT user pw TO
                         (composed subject user TO attachment_name file content))
           ∧ (r = Ret tt ↔ k = 6%nat)).
Proof.
  unfold send_email, bind.
  destruct (get_generic_credential w _ t) as [[cred|ex|h] t1] eqn:Hg.
  2,3: apply get_generic_credential_calls in Hg as (cevs & -> & Hc);
    intros [= <- <-]; exists cevs; split; [done|];
    split; [eapply Forall_impl; [by apply credential_calls_cred|]; by left|];
    left; split; [by apply credential_calls_no_smtp|done].
  destruct cred as [c|].
  2:{ apply get_generic_credential_calls in Hg as (cevs & -> & Hc).
      intros [= <- <-]. exists cevs. split; [done|].
      split; [eapply Forall_impl; [by apply credential_calls_cred|]; by left|].
      left. split; [by apply credential_calls_no_smtp|done]. }
  apply get_generic_credential_Some in Hg
    as (n & contents & Hname & Hstore & Hbytes & -> & ->).
  simpl.
  set (cevs := [EvCredRead (Some n) true; EvCredFree]).
  assert (Hcevs : Forall (λ ev, is_cred_event ev ∨ is_smtp_event ev) cevs)
    by (repeat constructor; by left).
  assert (Hstop : ∀ ex, ∃ evs, t ++ cevs = t ++ evs
            ∧ Forall (λ ev, is_cred_event ev ∨ is_smtp_event ev) evs
            ∧ ((smtp_ops evs = [] ∧ Raise ex ≠ Ret tt)
               ∨ ∃ SERVER PORT user pw TO k,
                   email_parameters w user_type SERVER PORT user pw TO
                   ∧ (1 ≤ k ≤ 6)%nat
                   ∧ smtp_ops evs
                     = take k (smtp_session SERVER PORT user pw TO
                                 (composed subject user TO attachment_name file
                                           content))
                   ∧ (Raise ex = Ret tt ↔ k = 6%nat))).
  { intros ex. exists cevs. split; [done|]. split; [done|]. by left. }
  destruct (read_config_value "email_server_name" (config w)) as [SERVER|] eqn:HS;
    [|intros [= <- <-]; apply Hstop].
  destruct (read_config_value "email_port" (config w)) as [PORT|] eqn:HP;
    [|intros [= <- <-]; apply Hstop].
  destruct (UserName contents) as [user|] eqn:Huser;
    [|intros [= <- <-]; apply Hstop].
  destruct (if bool_decide (user_type = "business")
            then read_config_value "business_users" (config w)
            else read_config_value "technical_users" (config w)) as [TO|] eqn:HTO;
    [|intros [= <- <-]; apply Hstop].
  assert (Hparams : email_parameters w user_type SERVER PORT user
                      (code_points contents) TO).
  { split; [done|]. split; [done|]. split.
    - unfold recipients_key. revert HTO. by destruct (bool_decide _).
    - exists n, contents. by rewrite <- Hname. }
  unfold smtp_call at 1.
  destruct (smtp w (SmtpConnect SERVER PORT)) as [ex|];
    [intros [= <- <-]; apply Hstop|].
  clear Hstop. unfold emit at 1. cbv beta iota.
  set (msg := {| msg_subject := subject; msg_from := user; msg_to := TO;
                 msg_attachment := (λ f, (attachment_name, f)) <$> file;
                 msg_html := content |}).
  set (pw := code_points contents) in *.
  assert (Hshape : ∀ k r0, (1 ≤ k ≤ 6)%nat → (r0 = Ret tt ↔ k = 6%nat) →
            ∃ evs, t ++ cevs ++ (EvSmtp <$> take k (smtp_session SERVER PORT user pw TO msg))
                   = t ++ evs
              ∧ Forall (λ ev, is_cred_event ev ∨ is_smtp_event ev) evs
              ∧ ((smtp_ops evs = [] ∧ r0 ≠ Ret tt)
                 ∨ ∃ SERVER PORT user pw TO k,
                     email_parameters w user_type SERVER PORT user pw TO
                     ∧ (1 ≤ k ≤ 6)%nat
                     ∧ smtp_ops evs
                       = take k (smtp_session SERVER PORT user pw TO
                                   (composed subject user TO attachment_name file
                                             content))
                     ∧ (r0 = Ret tt ↔ k = 6%nat))).
  { intros k r0 Hk Hiff. eexists. split; [reflexivity|]. split.
    - apply Forall_app. split; [done|]. apply Forall_fmap, Forall_forall.
      intros op _. by right.
    - right. exists SERVER, PORT, user, pw, TO, k.
      split; [done|]. split; [done|]. split; [|done].
      rewrite smtp_ops_app, smtp_ops_fmap.
      change (smtp_ops cevs) with (@nil smtp_op). done. }
  unfold smtp_call at 1.
  destruct (smtp w SmtpEhlo) as [ex|].
  { intros [= <- <-]. rewrite <- app_assoc. by apply (Hshape 1%nat); [lia|]. }
  unfold emit at 1. cbv beta iota. unfold smtp_call at 1.
  destruct (smtp w SmtpStarttls) as [ex|].
  { intros [= <- <-]. rewrite <- !app_assoc. by apply (Hshape 2%nat); [lia|]. }
  unfold emit at 1. cbv beta iota. unfold smtp_call at 1.
  destruct (smtp w (SmtpLogin _ _)) as [ex|].
  { intros [= <- <-]. rewrite <- !app_assoc. by apply (Hshape 3%nat); [lia|]. }
  unfold emit at 1. cbv beta iota.
  assert (Hcompose : as_string msg = ret msg ∨ ∃ ex, as_string msg = raise ex).
  { unfold as_string. subst msg. cbn [msg_to]. destruct TO; eauto. }
  destruct Hcompose as [->|[ex ->]].
  2:{ unfold raise. intros [= <- <-]. rewrite <- !app_assoc.
      by apply (Hshape 4%nat); [lia|]. }
  unfold ret at 1. cbv beta iota. unfold smtp_call at 1.
  destruct (smtp w (SmtpSendmail _ _ _)) as [ex|].
  { intros [= <- <-]. rewrite <- !app_assoc. by apply (Hshape 4%nat); [lia|]. }
  unfold emit at 1. cbv beta iota. unfold smtp_call.
  destruct (smtp w SmtpQuit) as [ex|].
  { intros [= <- <-]. rewrite <- !app_assoc. by apply (Hshape 5%nat); [lia|]. }
  unfold emit. intros [= <- <-]. rewrite <- !app_assoc.
  by apply (Hshape 6%nat); [lia|].
Qed.

(** X15: Whatever [send_email] ends with, it has called the credential manager
    and the mail server only; a message reaches [sendmail] only as the one
    composed from the arguments, addressed to the recipients configured for
    the audience, in a session that was upgraded with STARTTLS and logged in
    with the stored credential; and [send_email] returns exactly when it has
    quit that session. *)
Theorem send_email_mails_after_tls_login (w : world)
    (user_type subject content : string) (attachment_name : option string)
    (file : option DataFrame) (t : trace) (r : result unit) (t' : trace) :
  send_email w user_type subject content attachment_name file t = (r, t') →
  ∃ evs,
    t' = t ++ evs
    ∧ Forall (λ ev, is_cred_event ev ∨ is_smtp_event ev) evs
    ∧ (∀ from to msg,
         SmtpSendmail from to msg ∈ smtp_ops evs →
         ∃ SERVER PORT pw rest,
           email_parameters w user_type SERVER PORT from pw to
           ∧ msg = composed subject from to attachment_name file content
           ∧ smtp_ops evs
             = [SmtpConnect SERVER PORT; SmtpEhlo; SmtpStarttls; SmtpLogin from pw;
                SmtpSendmail from to msg] ++ rest)
    ∧ (r = Ret tt ↔ SmtpQuit ∈ smtp_ops evs).
Proof.
  intros (evs & -> & Hevs & Hshape)%send_email_inv.
  exists evs. split; [done|]. split; [done|].
  destruct Hshape as [[Hops Hr]|(SERVER & PORT & user & pw & TO & k
                                 & Hparams & Hk & Hops & Hiff)].
  - rewrite Hops. split.
    + by intros from to msg ?%elem_of_nil.
    + split; [done|by intros ?%elem_of_nil].
  - rewrite Hops, Hiff.
    assert (Hcases : (k = 1 ∨ k = 2 ∨ k = 3 ∨ k = 4 ∨ k = 5 ∨ k = 6)%nat) by lia.
    split.
    + intros from to msg Hin.
      destruct Hcases as [->|[->|[->|[->|[->| ->]]]]]; simpl in Hin;
        repeat (apply elem_of_cons in Hin as [Hin|Hin]; [try discriminate|]);
        try (by apply elem_of_nil in Hin);
        injection Hin as <- <- <-; by eexists SERVER, PORT, pw, _.
    + split.
      * intros ->. simpl. do 5 (apply elem_of_cons; right).
        apply elem_of_cons. by left.
      * intros Hin.
        destruct Hcases as [->|[->|[->|[->|[->| ->]]]]]; simpl in Hin; try done;
          repeat (apply elem_of_cons in Hin as [Hin|Hin]; [discriminate|]);
          by apply elem_of_nil in Hin.
Qed.

Lemma send_email_mails_after_tls_login_witness :
  ∃ evs,
    (send_email Fixture.world0 "technical" technical_subject
                (failure_content login_rejected) None None []).2 = [] ++ evs
    ∧ Forall (λ ev, is_cred_event ev ∨ is_smtp_event ev) evs
    ∧ (∀ from to msg,
         SmtpSendmail from to msg ∈ smtp_ops evs →
         ∃ SERVER PORT pw rest,
           email_parameters Fixture.world0 "technical" SERVER PORT from pw to
           ∧ msg = composed technical_subject from to None None
                            (failure_content login_rejected)
           ∧ smtp_ops evs
             = [SmtpConnect SERVER PORT; SmtpEhlo; SmtpStarttls; SmtpLogin from pw;
                SmtpSendmail from to msg] ++ rest)
    ∧ ((send_email Fixture.world0 "technical" technical_subject
                   (failure_content login_rejected) None None []).1 = Ret tt
       ↔ SmtpQuit ∈ smtp_ops evs).
Proof.
  eapply (send_email_mails_after_tls_login Fixture.world0 "technical"
            technical_subject (failure_content login_rejected) None None []).
  apply surjective_pairing.
Defined.

(** X16: With the mail credential read (the entry is found and every byte
    read from it is below 0x80) but the server, the port, the user name or
    the audience's recipients unresolved, [send_email] raises its
    BusinessException after the credential lookup and opens no session. *)
Theorem send_email_missing_parameter (w : world)
    (user_type subject content : string) (attachment_name : option string)
    (file : option DataFrame) (name : string) (contents : WinCredential)
    (t : trace) :
  read_config_value "email_credential_name" (config w) = Some (PyStr name) →
  cred_store w !! name = Some contents →
  Forall seven_bit (bytes_read contents) →
  read_config_value "email_server_name" (config w) = None
  ∨ read_config_value "email_port" (config w) = None
  ∨ UserName contents = None
  ∨ read_config_value (recipients_key user_type) (config w) = None →
  send_email w user_type subject content attachment_name file t
  = (Raise no_email_parameters, t ++ [EvCredRead (Some name) true; EvCredFree])
  ∧ is_business no_email_parameters = true.
Proof.
  intros Hname Hstore Hbytes Hmissing. split; [|reflexivity].
  unfold send_email, bind. rewrite Hname.
  rewrite (get_generic_credential_found _ _ contents) by done. simpl.
  unfold recipients_key in Hmissing.
  destruct (read_config_value "email_server_name" (config w)); [|done].
  destruct (read_config_value "email_port" (config w)); [|done].
  destruct (UserName contents); [|done].
  destruct (bool_decide (user_type = "business"));
    destruct Hmissing as [?|[?|[?|Hto]]]; try discriminate; by rewrite Hto.
Qed.

Lemma send_email_missing_parameter_witness :
  send_email (Fixture.world_without "technical_users") "technical"
             technical_subject (failure_content login_rejected) None None []
  = (Raise no_email_parameters, [] ++ [EvCredRead (Some "Gmail") true; EvCredFree])
  ∧ is_business no_email_parameters = true.
Proof.
  apply (send_email_missing_parameter (Fixture.world_without "technical_users")
           "technical" technical_subject (failure_content login_rejected) None None
           "Gmail"
           (Fixture.entry (Some "bot@gmail.com") Fixture.blob_pw)).
  - evaluate.
  - evaluate.
  - decided.
  - right. right. right. evaluate.
Defined.

(** ** Orchestrator: the run that completes *)

Lemma no_db_ops evs : Forall (λ ev, ¬ is_db_event ev) evs → db_ops evs = [].
Proof.
  induction 1 as [|[] evs Hev _ IH]; simpl in *; first [done|by destruct Hev].
Qed.

Lemma no_mails evs : Forall (λ ev, ¬ is_smtp_event ev) evs → mails evs = [].
Proof.
  induction 1 as [|[] evs Hev _ IH]; simpl in *; first [done|by destruct Hev].
Qed.

Lemma insert_into_db_ret_rows w results t t' :
  insert_into_db w results t = (Ret tt, t') → rows results ≠ [].
Proof.
  unfold insert_into_db. intros Hrun Hempty. rewrite Hempty in Hrun. discriminate.
Qed.

Lemma send_email_ret_frame w user_type subject content attachment_name file t t' :
  send_email w user_type subject content attachment_name file t = (Ret tt, t') →
  ∃ evs user TO,
    t' = t ++ evs
    ∧ db_ops evs = []
    ∧ read_config_value (recipients_key user_type) (config w) = Some TO
    ∧ mails evs = [composed subject user TO attachment_name file content].
Proof.
  intros Hrun.
  destruct (send_email_ret _ _ _ _ _ _ _ _ Hrun) as (user & TO & HTO & Hmails).
  destruct (send_email_inv _ _ _ _ _ _ _ _ _ Hrun) as (evs & -> & Hevs & _).
  exists evs, user, TO. split; [done|]. split.
  - apply no_db_ops. eapply Forall_impl; [exact Hevs|].
    intros [] [H|H]; simpl in *; tauto.
  - split; [done|]. rewrite mails_app in Hmails. by apply app_inv_head in Hmails.
Qed.

Lemma main_body_ret fuel w t t' :
  main_body fuel w t = (Ret tt, t') →
  ∃ evs, t' = t ++ evs ∧ completed_run fuel w evs.
Proof.
  intros Hbody.
  unfold main_body, bind in Hbody.
  destruct (send_email w "business" init_subject _ None None t)
    as [[[]|ex|h] t1] eqn:H1; try discriminate.
  destruct (login w t1) as [[s|ex|h] t2] eqn:H2; try discriminate.
  destruct (scraping fuel w s t2) as [[df|ex|h] t3] eqn:H3; try discriminate.
  destruct (insert_into_db w df t3) as [[[]|ex|h] t4] eqn:H4; try discriminate.
  apply send_email_ret_frame in H1 as (e1 & user1 & TO & -> & Hdb1 & HTO & Hm1).
  apply send_email_ret_frame in Hbody as (e5 & user2 & TO' & -> & Hdb5 & HTO' & Hm5).
  rewrite HTO in HTO'. injection HTO' as <-.
  destruct s.
  pose proof (login_inv _ _ _ _ H2) as Hlogin.
  assert (∃ e2, t2 = (t ++ e1) ++ e2
                ∧ Forall (λ ev, is_cred_event ev ∨ is_http_event ev) e2)
    as (e2 & -> & He2).
  { destruct Hlogin as [(e2 & -> & _ & Hne)|(url & tok & user & pw & name & answer
                                            & _ & _ & -> & _)]; [done|].
    eexists. split; [done|]. repeat constructor; simpl; tauto. }
  pose proof (scraping_gets _ _ _ _ _ _ H3) as (e3 & -> & He3).
  pose proof (insert_into_db_ret_rows _ _ _ _ H4) as Hrows.
  pose proof (insert_into_db_ret _ _ _ _ H4)
    as (connect & execs & Hdb4 & Hconn & Hex & Hlen).
  pose proof (insert_into_db_inv _ _ _ _ _ H4) as (e4 & -> & He4 & _).
  rewrite db_ops_app in Hdb4. apply app_inv_head in Hdb4.
  assert (Hd2 : db_ops e2 = []).
  { apply no_db_ops. eapply Forall_impl; [exact He2|].
    intros [] [H|H]; simpl in *; tauto. }
  assert (Hm2 : mails e2 = []).
  { apply no_mails. eapply Forall_impl; [exact He2|].
    intros [] [H|H]; simpl in *; tauto. }
  assert (Hd3 : db_ops e3 = []).
  { apply no_db_ops. eapply Forall_impl; [exact He3|]. intros [] H; simpl in *; tauto. }
  assert (Hm3 : mails e3 = []).
  { apply no_mails. eapply Forall_impl; [exact He3|]. intros [] H; simpl in *; tauto. }
  assert (Hm4 : mails e4 = []).
  { apply no_mails. eapply Forall_impl; [exact He4|].
    intros [] [H|H]; simpl in *; tauto. }
  exists (e1 ++ e2 ++ e3 ++ e4 ++ e5). split; [by rewrite <- !app_assoc|].
  exists df, TO, user1, user2, connect, execs.
  split; [by eauto|]. split; [done|]. split; [done|].
  rewrite !mails_app, !db_ops_app, Hm1, Hm2, Hm3, Hm4, Hm5, Hdb1, Hd2, Hd3, Hdb4, Hdb5.
  simpl. rewrite app_nil_r. done.
Qed.

(** X17: When the [try] block of [main] returns, [main] returns, and the run has
    mailed the business recipients twice, the initialization notice and the
    completion notice with the scraped collection attached as
    work_items.csv; it has opened one database session, inserted one row for
    each record of that collection and committed; the collection is not
    empty. *)
Theorem main_completed_run (fuel : nat) (w : world) (t t' : trace) :
  main_body fuel w t = (Ret tt, t') →
  main fuel w t = (Ret tt, t')
  ∧ ∃ evs, t' = t ++ evs ∧ completed_run fuel w evs.
Proof.
  intros Hbody. split; [by unfold main, try_except; rewrite Hbody|].
  by apply main_body_ret.
Qed.

Lemma main_completed_run_witness :
  main 3 Fixture.world0 [] = (Ret tt, (main 3 Fixture.world0 []).2)
  ∧ ∃ evs, (main 3 Fixture.world0 []).2 = [] ++ evs
           ∧ completed_run 3 Fixture.world0 evs.
Proof.
  apply (main_completed_run 3 Fixture.world0 []). evaluate.
Defined.

(** X18: Whenever [main] returns, the run either completed, or its [try] block
    failed and the last message mailed is the failure notice for that
    exception, addressed to the recipients of its audience: a failure that
    is not notified never lets [main] return. *)
Theorem main_returns_only_notified (fuel : nat) (w : world) (t t' : trace) :
  main fuel w t = (Ret tt, t') →
  (∃ evs, t' = t ++ evs ∧ completed_run fuel w evs)
  ∨ (∃ ex t1 user TO,
       main_body fuel w t = (Raise ex, t1)
       ∧ read_config_value (recipients_key (audience ex)) (config w) = Some TO
       ∧ mails t' = mails t1 ++ [failure_mail ex user TO]).
Proof.
  unfold main, try_except.
  destruct (main_body fuel w t) as [[[]|ex|h] t1] eqn:Hbody; [| |discriminate].
  - intros [= <-]. left. by apply main_body_ret.
  - intros Hhandler. right. exists ex, t1.
    unfold main_handler in Hhandler. unfold audience, failure_mail.
    destruct (is_business ex);
      apply send_email_ret in Hhandler as (user & TO & HTO & Hmails); eauto.
Qed.

Lemma main_returns_only_notified_witness :
  (∃ evs, (main 10 (Fixture.world_with_site (Fixture.site 204)) []).2 = [] ++ evs
          ∧ completed_run 10 (Fixture.world_with_site (Fixture.site 204)) evs)
  ∨ (∃ ex t1 user TO,
       main_body 10 (Fixture.world_with_site (Fixture.site 204)) [] = (Raise ex, t1)
       ∧ read_config_value (recipients_key (audience ex))
                           (config (Fixture.world_with_site (Fixture.site 204)))
         = Some TO
       ∧ mails (main 10 (Fixture.world_with_site (Fixture.site 204)) []).2
         = mails t1 ++ [failure_mail ex user TO]).
Proof.
  apply (main_returns_only_notified 10 (Fixture.world_with_site (Fixture.site 204)) []).
  evaluate.
Defined.

(** ** Secret store client: what is returned *)

Lemma to_N_byte_of z : 0 ≤ z < 256 → Z.of_N (Byte.to_N (byte_of z)) = z.
Proof.
  intros Hz. unfold byte_of.
  destruct (Byte.of_N (Z.to_N z)) as [b|] eqn:Hb.
  - apply Byte.to_of_N in Hb. simpl. rewrite Hb. lia.
  - apply Byte.of_N_None_iff in Hb. lia.
Qed.

Lemma length_utf16le cps : length (utf16le cps) = (2 * length cps)%nat.
Proof.
  unfold utf16le. induction cps as [|c cps IH]; [done|].
  cbn [flat_map length app]. rewrite IH. lia.
Qed.

Lemma odd_double n : Nat.odd (2 * n) = false.
Proof.
  rewrite <- Nat.negb_even, Nat.even_mul. done.
Qed.

Lemma seven_bit_utf16le cps :
  Forall is_code_unit cps →
  Forall seven_bit (utf16le cps) ↔ Forall both_below_0x80 cps.
Proof.
  induction 1 as [|c cps Hc _ IH].
  - split; constructor.
  - unfold utf16le. cbn [flat_map app]. fold (utf16le cps).
    rewrite !Forall_cons, IH.
    unfold seven_bit, both_below_0x80, is_code_unit in *.
    assert (Hlo : 0 ≤ c `mod` 256 < 256) by (apply Z.mod_pos_bound; lia).
    assert (Hhi : 0 ≤ c `div` 256 < 256).
    { split; [apply Z.div_pos; lia|apply Z.div_lt_upper_bound; lia]. }
    pose proof (to_N_byte_of _ Hlo). pose proof (to_N_byte_of _ Hhi).
    split.
    + intros (? & ? & ?). split; [lia|done].
    + intros [[? ?] ?]. split; [lia|]. split; [lia|done].
Qed.

Lemma units_utf16le cps : Forall is_code_unit cps → units (utf16le cps) = cps.
Proof.
  induction 1 as [|c cps Hc _ IH]; [done|].
  unfold utf16le. cbn [flat_map app units]. fold (utf16le cps). rewrite IH.
  f_equal. unfold is_code_unit in Hc.
  rewrite !to_N_byte_of.
  - pose proof (Z.div_mod c 256). lia.
  - split; [apply Z.div_pos; lia|apply Z.div_lt_upper_bound; lia].
  - apply Z.mod_pos_bound. lia.
Qed.

(** X21: Reading a generic credential whose blob is the UTF-16LE text of a
    password gives that password back, code unit for code unit, exactly
    when both bytes of every code unit are below 0x80; any other byte reads
    negative and the retrieval raises a ValueError. Either way the buffer
    is freed. *)
Theorem get_generic_credential_decodes_utf16le (w : world) (name : string)
    (contents : WinCredential) (code_units : list Z) (t : trace) :
  cred_store w !! name = Some contents →
  CredentialBlob contents = utf16le code_units →
  Forall is_code_unit code_units →
  get_generic_credential w (Some (PyStr name)) t
  = (if decide (Forall both_below_0x80 code_units)
     then Ret (Some {| username := UserName contents; password := code_units |})
     else Raise bad_bytes,
     t ++ [EvCredRead (Some name) true; EvCredFree]).
Proof.
  intros Hstore Hblob Hunits.
  assert (Hread : bytes_read contents = utf16le code_units).
  { unfold bytes_read, CredentialBlobSize.
    by rewrite Hblob, length_utf16le, odd_double, app_nil_r. }
  destruct (decide (Forall both_below_0x80 code_units)) as [Hlow|Hhigh].
  - rewrite (get_generic_credential_found _ _ contents)
      by (done || (rewrite Hread; by apply seven_bit_utf16le)).
    unfold code_points. by rewrite Hread, units_utf16le.
  - apply (get_generic_credential_bad_blob _ _ contents); [done|].
    rewrite Hread. by rewrite seven_bit_utf16le.
Qed.

Lemma get_generic_credential_decodes_utf16le_witness :
  get_generic_credential Fixture.world0 (Some (PyStr "Gmail")) []
  = (Ret (Some {| username := Some "bot@gmail.com"; password := [112; 119] |}),
     [] ++ [EvCredRead (Some "Gmail") true; EvCredFree])
  ∧ get_generic_credential Fixture.world_signed_blob (Some (PyStr "ACME")) []
    = (Raise bad_bytes, [] ++ [EvCredRead (Some "ACME") true; EvCredFree]).
Proof.
  split.
  - apply (get_generic_credential_decodes_utf16le Fixture.world0 "Gmail"
             (Fixture.entry (Some "bot@gmail.com") Fixture.blob_pw) [112; 119] []).
    + evaluate.
    + evaluate.
    + decided.
  - apply (get_generic_credential_decodes_utf16le Fixture.world_signed_blob "ACME"
             (Fixture.entry (Some "bot@example.com") [x70; x00; xe9; x00])
             [112; 233] []).
    + evaluate.
    + evaluate.
    + decided.
Defined.

Lemma units_length : ∀ n bs,
  (length bs ≤ n)%nat → length (units bs) = Nat.div2 (length bs).
Proof.
  induction n as [|n IH]; intros [|lo [|hi rest]] Hn; simpl in Hn; try lia; try done.
  cbn [units length Nat.div2]. rewrite IH by lia. done.
Qed.

Lemma units_lookup : ∀ k bs v,
  units bs !! k = Some v →
  ∃ lo hi, bs !! (2 * k)%nat = Some lo ∧ bs !! (2 * k + 1)%nat = Some hi
           ∧ v = Z.of_N (Byte.to_N lo) + 256 * Z.of_N (Byte.to_N hi).
Proof.
  induction k as [|k IH]; intros [|lo [|hi rest]] v Hv; try discriminate.
  - injection Hv as <-. by exists lo, hi.
  - cbn [units] in Hv. rewrite lookup_cons_ne_0 in Hv by done. simpl in Hv.
    apply IH in Hv as (lo' & hi' & Hlo & Hhi & ->).
    exists lo', hi'.
    replace (2 * S k)%nat with (S (S (2 * k))) by lia.
    replace (S (S (2 * k)) + 1)%nat with (S (S (2 * k + 1))) by lia.
    done.
Qed.

Lemma lookup_bytes_read_memory contents i b :
  bytes_read contents !! i = Some b →
  (CredentialBlob contents ++ [after_blob contents]) !! i = Some b.
Proof.
  unfold bytes_read.
  destruct (Nat.odd _); [done|]. rewrite app_nil_r.
  apply lookup_app_l_Some.
Qed.

(** X22: A credential that comes back is the entry stored under the name asked
    for: its user name is the entry's, and its password has one code unit
    for every two bytes of the blob, the low byte first, both bytes below
    0x80; the last byte of a blob of odd size is paired with the byte that
    follows the blob in memory. *)
Theorem get_generic_credential_returns_stored (w : world) (name : option pyval)
    (t : trace) (cred : Credential) (t' : trace) :
  get_generic_credential w name t = (Ret (Some cred), t') →
  ∃ n contents,
    name = Some (PyStr n)
    ∧ cred_store w !! n = Some contents
    ∧ username cred = UserName contents
    ∧ length (password cred) = Nat.div2 (S (CredentialBlobSize contents))
    ∧ ∀ k v, password cred !! k = Some v →
        ∃ lo hi,
          (CredentialBlob contents ++ [after_blob contents]) !! (2 * k)%nat = Some lo
          ∧ (CredentialBlob contents ++ [after_blob contents]) !! (2 * k + 1)%nat
            = Some hi
          ∧ seven_bit lo ∧ seven_bit hi
          ∧ v = Z.of_N (Byte.to_N lo) + 256 * Z.of_N (Byte.to_N hi).
Proof.
  intros (n & contents & -> & Hstore & Hbytes & -> & _)%get_generic_credential_Some.
  exists n, contents. simpl. do 3 (split; [done|]). split.
  - unfold code_points. rewrite (units_length _ _ (le_n _)), length_bytes_read.
    by rewrite Nat.div2_double.
  - intros k v (lo & hi & Hlo & Hhi & ->)%units_lookup.
    rewrite Forall_forall in Hbytes.
    exists lo, hi.
    split; [by apply lookup_bytes_read_memory|].
    split; [by apply lookup_bytes_read_memory|].
    split; [by eapply Hbytes, list_elem_of_lookup_2|].
    split; [by eapply Hbytes, list_elem_of_lookup_2|done].
Qed.

Lemma get_generic_credential_returns_stored_witness :
  ∃ n contents,
    Some (PyStr "odd") = Some (PyStr n)
    ∧ cred_store Cases2.world_odd_blob !! n = Some contents
    ∧ username {| username := Some "bot@example.com"; password := [112; 1911] |}
      = UserName contents
    ∧ length (password {| username := Some "bot@example.com";
                          password := [112; 1911] |})
      = Nat.div2 (S (CredentialBlobSize contents))
    ∧ ∀ k v, password {| username := Some "bot@example.com";
                         password := [112; 1911] |} !! k = Some v →
        ∃ lo hi,
          (CredentialBlob contents ++ [after_blob contents]) !! (2 * k)%nat = Some lo
          ∧ (CredentialBlob contents ++ [after_blob contents]) !! (2 * k + 1)%nat
            = Some hi
          ∧ seven_bit lo ∧ seven_bit hi
          ∧ v = Z.of_N (Byte.to_N lo) + 256 * Z.of_N (Byte.to_N hi).
Proof.
  apply (get_generic_credential_returns_stored Cases2.world_odd_blob
           (Some (PyStr "odd")) []
           {| username := Some "bot@example.com"; password := [112; 1911] |}
           [EvCredRead (Some "odd") true; EvCredFree]).
  evaluate.
Defined.

Lemma single_or_none_perm {A B} (f : A → option B) (l l' : list A) :
  l ≡ₚ l' →
  match l with [v] => f v | _ => None end
  = match l' with [v] => f v | _ => None end.
Proof.
  intros Hperm. pose proof (Permutation_length Hperm) as Hlen.
  destruct l as [|v [|v2 l]]; destruct l' as [|v' [|v2' l']];
    simpl in Hlen; try lia; try done.
  apply Permutation_singleton_l in Hperm. by injection Hperm as <-.
Qed.

(** X20: A lookup does not depend on the order of the rows of the Settings
    sheet. *)
Theorem read_config_value_permutation (key : string)
    (config config' : list config_row) :
  config ≡ₚ config' →
  read_config_value key config = read_config_value key config'.
Proof.
  intros Hperm. unfold read_config_value, matching_values.
  apply single_or_none_perm. by rewrite Hperm.
Qed.

Lemma read_config_value_permutation_witness :
  read_config_value "email_port" Fixture.settings
  = read_config_value "email_port" (reverse Fixture.settings).
Proof.
  apply (read_config_value_permutation "email_port" Fixture.settings
           (reverse Fixture.settings)).
  symmetry. apply reverse_Permutation.
Defined.

(** ** Orchestrator: which failures count as business failures *)

Lemma str_in_skip (n0 c : ascii) (n' s : string) :
  c ≠ n0 → str_in (String n0 n') (String c s) = str_in (String n0 n') s.
Proof.
  intros Hne. cbn [str_in String.prefix].
  destruct (ascii_dec n0 c) as [->|]; [done|]. done.
Qed.

Lemma prefix_before_quote (n : string) : ∀ s,
  Forall (λ c, c ≠ "'"%char ∧ c ≠ ">"%char) (list_ascii_of_string n) →
  String.prefix n (s +:+ "'>") = String.prefix n s.
Proof.
  induction n as [|a n IH]; intros s Hn; [by destruct s|].
  simpl in Hn. apply Forall_cons in Hn as [[Hq Hgt] Hn].
  destruct s as [|c s].
  - change ("" +:+ "'>") with "'>". cbn [String.prefix].
    destruct (ascii_dec a "'"); [done|]. done.
  - change (String c s +:+ "'>") with (String c (s +:+ "'>")).
    cbn [String.prefix]. destruct (ascii_dec a c); [by apply IH|done].
Qed.

Lemma str_in_before_quote (a : ascii) (n : string) : ∀ s,
  Forall (λ c, c ≠ "'"%char ∧ c ≠ ">"%char) (list_ascii_of_string (String a n)) →
  str_in (String a n) (s +:+ "'>") = str_in (String a n) s.
Proof.
  intros s Hn. induction s as [|c s IH].
  - pose proof Hn as Hn'. simpl in Hn'. apply Forall_cons in Hn' as [[Hq Hgt] _].
    change ("" +:+ "'>") with "'>".
    rewrite str_in_skip by done. rewrite str_in_skip by done. done.
  - change (String c s +:+ "'>") with (String c (s +:+ "'>")).
    cbn [str_in]. rewrite IH.
    change (String c (s +:+ "'>")) with (String c s +:+ "'>").
    by rewrite prefix_before_quote.
Qed.

(** X19: Whether an exception is routed to the business users depends on its
    class alone, not on its message: it is, exactly when the qualified name
    of the class contains the text BusinessException. *)
Theorem is_business_iff_class_name (class message : string) :
  is_business (Exn class message) = str_in "BusinessException" class.
Proof.
  unfold is_business, str_type. cbn [exn_class].
  change ("<class '" +:+ class +:+ "'>")
    with (String "<" (String "c" (String "l" (String "a" (String "s" (String "s"
           (String " " (String "'" (class +:+ "'>"))))))))).
  rewrite !str_in_skip by discriminate.
  apply str_in_before_quote.
  repeat constructor; discriminate.
Qed.

(** ** Persistence sink: a collection without one of the five fields *)

Ltac in_labels :=
  unfold item_labels;
  repeat first [by (apply elem_of_cons; left) | apply elem_of_cons; right].

Lemma getattr_row_missing cols cells label t :
  label ∉ cols →
  getattr_row cols cells label t = (Raise (no_attribute label), t).
Proof.
  intros Hnot. unfold getattr_row. by rewrite positions_from_absent.
Qed.

(** The first of WIID, Description, Type, Status, Date that the first
    record lacks stops the loop before any INSERT. *)
Lemma insert_rows_missing w cols row rws t :
  (∃ label, label ∈ item_labels ∧ label ∉ cols) →
  ∃ label, label ∈ item_labels ∧ (label ∉ cols)
           ∧ insert_rows w cols (row :: rws) t = (Raise (no_attribute label), t).
Proof.
  intros (missing & Hin & Hnot).
  cbn [insert_rows]. unfold bind.
  destruct (decide ("WIID" ∈ cols)) as [H1|H1].
  2:{ exists "WIID". split; [in_labels|]. split; [done|].
      by rewrite getattr_row_missing. }
  rewrite (getattr_row_ok _ _ "WIID") by done.
  destruct (decide ("Description" ∈ cols)) as [H2|H2].
  2:{ exists "Description". split; [in_labels|]. split; [done|].
      by rewrite getattr_row_missing. }
  rewrite (getattr_row_ok _ _ "Description") by done.
  destruct (decide ("Type" ∈ cols)) as [H3|H3].
  2:{ exists "Type". split; [in_labels|]. split; [done|].
      by rewrite getattr_row_missing. }
  rewrite (getattr_row_ok _ _ "Type") by done.
  destruct (decide ("Status" ∈ cols)) as [H4|H4].
  2:{ exists "Status". split; [in_labels|]. split; [done|].
      by rewrite getattr_row_missing. }
  rewrite (getattr_row_ok _ _ "Status") by done.
  destruct (decide ("Date" ∈ cols)) as [H5|H5].
  2:{ exists "Date". split; [in_labels|]. split; [done|].
      by rewrite getattr_row_missing. }
  exfalso. apply Hnot. unfold item_labels in Hin.
  repeat (apply elem_of_cons in Hin as [->|Hin]; [done|]).
  by apply elem_of_nil in Hin.
Qed.

(** X14: A collection with rows that lacks one of the labels WIID,
    Description, Type, Status, Date is refused only after the connection
    and the cursor are open: with the credential read and the server
    resolved, [insert_into_db] raises the AttributeError of the missing
    field, which is not a BusinessException, with nothing inserted or
    committed and the cursor left open. *)
Theorem insert_into_db_missing_field (w : world) (results : DataFrame)
    (name : string) (contents : WinCredential) (user server : string)
    (t : trace) :
  rows results ≠ [] →
  read_config_value "DB_credential_name" (config w) = Some (PyStr name) →
  cred_store w !! name = Some contents →
  Forall seven_bit (bytes_read contents) →
  UserName contents = Some user →
  read_config_value "DB_server_name" (config w) = Some (PyStr server) →
  (∀ op, db w op = None) →
  (∃ label, label ∈ item_labels ∧ label ∉ columns results) →
  ∃ label,
    label ∈ item_labels ∧ (label ∉ columns results)
    ∧ insert_into_db w results t
      = (Raise (no_attribute label),
         t ++ [EvCredRead (Some name) true; EvCredFree;
               EvDb (DbConnect server "Automations" user
                               (code_points contents));
               EvDb DbCursor])
    ∧ is_business (no_attribute label) = false.
Proof.
  intros Hrows Hname Hcred Hbytes Huser Hserver Hdb Hmissing.
  destruct (rows results) as [|row rws] eqn:Hr; [done|].
  destruct (insert_rows_missing w (columns results) row rws
              (((t ++ [EvCredRead (Some name) true; EvCredFree])
                ++ [EvDb (DbConnect server "Automations" user
                                    (code_points contents))])
               ++ [EvDb DbCursor]) Hmissing)
    as (label & Hin & Hnot & Hins).
  exists label. split; [done|]. split; [done|]. split; [|reflexivity].
  unfold insert_into_db. rewrite Hr.
  change (0 <? length (row :: rws))%nat with true. cbv iota.
  rewrite Hname, Hserver. unfold bind.
  rewrite (get_generic_credential_found _ _ contents) by done.
  cbn [unpack ret fst snd username password]. rewrite Huser.
  cbn [concat_str ret]. unfold db_call at 1 2. rewrite !Hdb. unfold emit.
  rewrite Hins. by rewrite <- !app_assoc.
Qed.

Lemma insert_into_db_missing_field_witness :
  ∃ label,
    label ∈ item_labels ∧ (label ∉ columns Cases.items_by_id)
    ∧ insert_into_db Fixture.world0 Cases.items_by_id []
      = (Raise (no_attribute label),
         [] ++ [EvCredRead (Some "SQLServer") true; EvCredFree;
                EvDb (DbConnect "localhost" "Automations" "sa"
                                [112; 119]);
                EvDb DbCursor])
    ∧ is_business (no_attribute label) = false.
Proof.
  apply (insert_into_db_missing_field Fixture.world0 Cases.items_by_id "SQLServer"
           (Fixture.entry (Some "sa") Fixture.blob_pw)
           "sa" "localhost" []).
  - done.
  - evaluate.
  - evaluate.
  - decided.
  - reflexivity.
  - evaluate.
  - done.
  - exists "WIID". split; [in_labels|].
    simpl. intros Hin.
    repeat (apply elem_of_cons in Hin as [Hin|Hin]; [discriminate|]).
    by apply elem_of_nil in Hin.
Defined.

(** ** Paginated scraper: what it asks of the site *)

Lemma scrape_loop_first fuel w session : ∀ url acc t r t',
  scrape_loop fuel w session url acc t = (r, t') →
  ∃ evs, t' = t ++ evs
         ∧ Forall is_get_event evs
         ∧ ∀ ev, head evs = Some ev → ∃ u, url = Some u ∧ ev = EvHttp (GET u).
Proof.
  intros url acc t r t' Hrun.
  destruct (scrape_loop_gets _ _ _ _ _ _ _ _ Hrun) as (evs & -> & Hevs).
  exists evs. split; [done|]. split; [done|].
  destruct fuel as [|fuel].
  { injection Hrun as _ Ht. rewrite <- (app_nil_r t) in Ht at 1.
    apply app_inv_head in Ht as <-. by intros ev. }
  destruct url as [u|].
  2:{ injection Hrun as _ Ht. rewrite <- (app_nil_r t) in Ht at 1.
      apply app_inv_head in Ht as <-. by intros ev. }
  simpl in Hrun. unfold bind, request in Hrun.
  destruct (http w (GET u)) as [ex|page] eqn:Hget.
  { injection Hrun as _ Ht. rewrite <- (app_nil_r t) in Ht at 1.
    apply app_inv_head in Ht as <-. by intros ev. }
  simpl in Hrun.
  assert (Hhead : ∀ rest, t ++ EvHttp (GET u) :: rest = t ++ evs →
            ∀ ev, head evs = Some ev → ∃ u0, Some u = Some u0 ∧ ev = EvHttp (GET u0)).
  { intros rest Heq%app_inv_head ev Hev. subst evs. injection Hev as <-. by exists u. }
  destruct (bool_decide (status_code page ≠ 200)).
  { injection Hrun as _ Ht. by apply (Hhead []). }
  destruct (find_in (is_tag "table") (soup_of page)) as [tb|].
  2:{ injection Hrun as _ Ht. by apply (Hhead []). }
  destruct (find_in is_pagination (soup_of page)) as [pg|].
  2:{ injection Hrun as _ Ht. by apply (Hhead []). }
  destruct (bool_decide _).
  - apply scrape_loop_gets in Hrun as (more & Ht & _).
    apply (Hhead more). rewrite Ht. by rewrite <- app_assoc.
  - injection Hrun as _ Ht. by apply (Hhead []).
Qed.

(** X2: Whatever [scraping] ends with, it has sent the site GET requests and
    nothing else: no POST, and no call on the credential manager, the
    database or the mail server; and its first request goes to the
    configured extraction URL. *)
Theorem scraping_only_fetches (fuel : nat) (w : world) (session : Session)
    (t : trace) (r : result DataFrame) (t' : trace) :
  scraping fuel w session t = (r, t') →
  ∃ evs,
    t' = t ++ evs
    ∧ Forall is_get_event evs
    ∧ ∀ ev, head evs = Some ev →
        ∃ u, read_config_value "extract_url" (config w) = Some u
             ∧ ev = EvHttp (GET u).
Proof.
  unfold scraping, bind, lift, ret. intros Hrun.
  destruct (scrape_loop fuel w session _ [] t) as [rl t1] eqn:Hloop.
  apply scrape_loop_first in Hloop as (evs & -> & Hevs & Hhead).
  assert (t' = t ++ evs) as ->.
  { destruct rl as [acc|ex|h]; [|by injection Hrun as _ <-..].
    destruct (pd_DataFrame _ _) as [frame|ex|h]; [|by injection Hrun as _ <-..].
    simpl in Hrun. destruct (filter_open frame); by injection Hrun as _ <-. }
  by exists evs.
Qed.

Lemma scraping_only_fetches_witness :
  ∃ evs,
    (scraping 3 (Fixture.world_with_site Cases.site_gone3) RequestsSession []).2
    = [] ++ evs
    ∧ Forall is_get_event evs
    ∧ ∀ ev, head evs = Some ev →
        ∃ u, read_config_value "extract_url"
               (config (Fixture.world_with_site Cases.site_gone3)) = Some u
             ∧ ev = EvHttp (GET u).
Proof.
  eapply (scraping_only_fetches 3 (Fixture.world_with_site Cases.site_gone3)
            RequestsSession []).
  apply surjective_pairing.
Defined.

(** ** Authenticator: the failures before the POST *)

(** X10: A stored entry without a user name, every byte read from it below
    0x80, is the case in which [login] raises its credentials
    BusinessException; it has then sent the site nothing. *)
Theorem login_entry_without_user_name (w : world) (url : pyval) (name : string)
    (contents : WinCredential) (t : trace) :
  read_config_value "login_url" (config w) = Some url →
  read_config_value "ACME_credential_name" (config w) = Some (PyStr name) →
  cred_store w !! name = Some contents →
  Forall seven_bit (bytes_read contents) →
  UserName contents = None →
  login w t
  = (Raise credentials_not_found, t ++ [EvCredRead (Some name) true; EvCredFree])
  ∧ is_business credentials_not_found = true.
Proof.
  intros Hurl Hname Hstore Hbytes Huser. split; [|reflexivity].
  unfold login. rewrite Hurl, Hname. unfold bind.
  rewrite (get_generic_credential_found _ _ contents) by done.
  simpl. by rewrite Huser.
Qed.

Lemma login_entry_without_user_name_witness :
  login Cases2.world_nameless []
  = (Raise credentials_not_found, [] ++ [EvCredRead (Some "ACME") true; EvCredFree])
  ∧ is_business credentials_not_found = true.
Proof.
  apply (login_entry_without_user_name Cases2.world_nameless
           (PyStr Fixture.login_url) "ACME"
           (Fixture.entry None Fixture.blob_pw) []).
  - evaluate.
  - evaluate.
  - evaluate.
  - decided.
  - reflexivity.
Defined.

(** X11: When the credentials are read and the page at the login URL has no
    token to read, [login] fails after the GET with the error of the
    subscript, a TypeError for a missing field and a KeyError for a field
    without a value; neither is a BusinessException, and the credentials
    are not posted. *)
Theorem login_form_without_token (w : world) (url : pyval) (name : string)
    (contents : WinCredential) (user : string) (form : response) (t : trace) :
  read_config_value "login_url" (config w) = Some url →
  read_config_value "ACME_credential_name" (config w) = Some (PyStr name) →
  cred_store w !! name = Some contents →
  Forall seven_bit (bytes_read contents) →
  UserName contents = Some user →
  http w (GET url) = inr form →
  token_of form = None →
  login w t
  = (Raise (token_error form),
     t ++ [EvCredRead (Some name) true; EvCredFree; EvHttp (GET url)])
  ∧ is_business (token_error form) = false.
Proof.
  intros Hurl Hname Hstore Hbytes Huser Hget Htoken.
  unfold token_of, token_error, is_token_input in *.
  split.
  - unfold login. rewrite Hurl, Hname. unfold bind.
    rewrite (get_generic_credential_found _ _ contents) by done.
    simpl. rewrite Huser. unfold request. rewrite Hget. simpl.
    destruct (find_in _ (soup_of form)) as [input|];
      [rewrite Htoken|]; by rewrite <- app_assoc.
  - by destruct (find_in _ (soup_of form)).
Qed.

Lemma login_form_without_token_witness :
  login (Fixture.world_with_site Cases2.site_plain) []
  = (Raise (token_error {| status_code := 200; soup_of := Cases2.login_page_plain |}),
     [] ++ [EvCredRead (Some "ACME") true; EvCredFree;
            EvHttp (GET (PyStr Fixture.login_url))])
  ∧ is_business
      (token_error {| status_code := 200; soup_of := Cases2.login_page_plain |})
    = false.
Proof.
  apply (login_form_without_token (Fixture.world_with_site Cases2.site_plain)
           (PyStr Fixture.login_url) "ACME"
           (Fixture.entry (Some "bot@example.com") Fixture.blob_pw)
           "bot@example.com"
           {| status_code := 200; soup_of := Cases2.login_page_plain |} []).
  - evaluate.
  - evaluate.
  - evaluate.
  - decided.
  - reflexivity.
  - evaluate.
  - evaluate.
Defined.
